(** * Gutenberger: the verification-and-analysis pipeline of [Gutenberger.py]

    A shallow embedding of the pure core of the ebook manager: the text
    extraction filter, the metadata matcher, the language detector, the
    readability scorer with its grade-to-band mapping, and the theme
    detector.

    Modelling conventions.
    - A Python [str] is a [string]; each [ascii] stands for the code point
      of the same number, so the repertoire is U+0000..U+00FF.  Character
      classes ([str.isspace], the regex classes [\w] and [\s], [str.lower])
      are those of CPython on that range.  Literals with accented letters
      are written as in the source and decoded by [u].
    - A Python [float] is a rational [Q]: arithmetic is exact, and
      [round (x, 1)] rounds the exact value, ties to even.
    - A [dict] literal whose iteration order matters is an association
      list in declaration order; a [set] of words is a [gset string].
    - The optional third-party packages (textstat, pyphen) are the fields
      of a record [packages] that the scorer takes as its first argument;
      [None] stands for a raised exception that the source catches. *)

From Stdlib Require Import QArith Qround Ascii.
From stdpp Require Import gmap strings list sorting.
From Stdlib Require Import Lia Lqa Sorted.

Local Open Scope Z_scope.
Local Open Scope nat_scope.

(** ** Characters *)

Definition ord (c : ascii) : N := N_of_ascii c.
Definition chr (n : N) : ascii := ascii_of_N n.

Definition in_range (lo hi n : N) : bool := ((lo <=? n) && (n <=? hi))%N.

(** [str.isspace], which is also the regex class [\s]. *)
Definition isspace (c : ascii) : bool :=
  let n := ord c in
  in_range 9 13 n || in_range 28 32 n || (n =? 133)%N || (n =? 160)%N.

(** The regex class [\w]: alphanumeric code points and the underscore. *)
Definition isword (c : ascii) : bool :=
  let n := ord c in
  in_range 48 57 n || in_range 65 90 n || (n =? 95)%N || in_range 97 122 n
  || (n =? 170)%N || in_range 178 179 n || (n =? 181)%N || in_range 185 186 n
  || in_range 188 190 n || in_range 192 214 n || in_range 216 246 n
  || in_range 248 255 n.

Definition lower_char (c : ascii) : ascii :=
  let n := ord c in
  if in_range 65 90 n || in_range 192 214 n || in_range 216 222 n
  then chr (n + 32) else c.

(** ** Strings *)

(** [s.lower ()] *)
Fixpoint lower (s : string) : string :=
  match s with
  | EmptyString => EmptyString
  | String c s' => String (lower_char c) (lower s')
  end.

(** [len (s)] *)
Definition len (s : string) : nat := String.length s.

(** Characters of [s] that satisfy [keep]; [re.sub ('[^...]', '', s)] with
    [keep] the class that is negated in the pattern. *)
Fixpoint keep_chars (keep : ascii -> bool) (s : string) : string :=
  match s with
  | EmptyString => EmptyString
  | String c s' =>
      if keep c then String c (keep_chars keep s') else keep_chars keep s'
  end.

(** [s.startswith (p)] *)
Fixpoint startswith (p s : string) : bool :=
  match p, s with
  | EmptyString, _ => true
  | String a p', String b s' => if ascii_dec a b then startswith p' s' else false
  | String _ _, EmptyString => false
  end.

(** [p in s] for two strings: [p] occurs in [s] as a substring. *)
Fixpoint contains (p s : string) : bool :=
  startswith p s ||
  match s with
  | EmptyString => false
  | String _ s' => contains p s'
  end.

(** [s.endswith (p)]: some tail of [s] is [p]. *)
Fixpoint endswith (p s : string) : bool :=
  String.eqb s p ||
  match s with
  | EmptyString => false
  | String _ s' => endswith p s'
  end.

(** [s.split ()]: the maximal runs of non-whitespace characters.  [cur]
    holds the characters of the run being read, last one first. *)
Fixpoint split_go (cur : string) (s : string) : list string :=
  match s with
  | EmptyString =>
      match cur with EmptyString => [] | _ => [String.rev cur] end
  | String c s' =>
      if isspace c then
        match cur with
        | EmptyString => split_go EmptyString s'
        | _ => String.rev cur :: split_go EmptyString s'
        end
      else split_go (String c cur) s'
  end.

Definition split (s : string) : list string := split_go EmptyString s.

(** [sep.join (parts)] *)
Fixpoint join (sep : string) (parts : list string) : string :=
  match parts with
  | [] => EmptyString
  | [p] => p
  | p :: rest => p +:+ sep +:+ join sep rest
  end.

(** [s.split (sep)] for a one-character separator: empty pieces are kept. *)
Fixpoint split_on_go (sep : ascii) (cur : string) (s : string) : list string :=
  match s with
  | EmptyString => [String.rev cur]
  | String c s' =>
      if ascii_dec c sep then String.rev cur :: split_on_go sep EmptyString s'
      else split_on_go sep (String c cur) s'
  end.

Definition split_on (sep : ascii) (s : string) : list string :=
  split_on_go sep EmptyString s.

(** Decoding of a literal: the source file is UTF-8, and a letter of
    U+0080..U+00FF is the two bytes [192 + n / 64], [128 + n mod 64].
    Letters beyond U+00FF are outside the repertoire and are dropped. *)
Fixpoint u (s : string) : string :=
  match s with
  | EmptyString => EmptyString
  | String c s' =>
      let n := ord c in
      if (n <? 128)%N then String c (u s')
      else if in_range 128 191 n then u s'
      else
        match s' with
        | String d _ =>
            if (n <? 196)%N
            then String (chr ((n - 192) * 64 + (ord d - 128))) (u s')
            else u s'
        | EmptyString => EmptyString
        end
  end.

(** ** Numbers *)

(** Truthiness of an optional string: [None] and [''] are false. *)
Definition truthy (o : option string) : bool :=
  match o with
  | Some (String _ _) => true
  | _ => false
  end.

Definition Qleb (a b : Q) : bool := Qle_bool a b.

(** [round (x, 1)]: the nearest multiple of one tenth, a tie going to the
    even multiple. *)
Definition round_half_even (x : Q) : Z :=
  let f := Qfloor x in
  let r := (x - inject_Z f)%Q in
  match (r ?= 1 # 2)%Q with
  | Lt => f
  | Gt => (f + 1)%Z
  | Eq => if Z.even f then f else (f + 1)%Z
  end.

Definition round1 (x : Q) : Q :=
  (inject_Z (round_half_even (x * 10)) / 10)%Q.

(** [max (0, x)] *)
Definition max0 (x : Q) : Q := if Qlt_le_dec 0 x then x else 0%Q.

(** ** Proficiency bands *)

(** [grade_to_cefr]: the argument is [None] for Python's [None]. *)
Definition grade_to_cefr (grade_level : option Q) : option string :=
  match grade_level with
  | None => None
  | Some g =>
      if Qleb g 4 then Some "A1"
      else if Qleb g 6 then Some "A2"
      else if Qleb g 8 then Some "B1"
      else if Qleb g 10 then Some "B2"
      else if Qleb g 13 then Some "C1"
      else Some "C2"
  end.

(** ** Sorting *)

(** [sorted]: CPython's sort is stable.  [before x y] says that [x] may
    stand in front of [y]; an element is put in front of the first one it
    may stand in front of, so equal elements keep their order. *)
Fixpoint insert_sorted {A} (before : A -> A -> bool) (x : A) (l : list A) : list A :=
  match l with
  | [] => [x]
  | y :: l' => if before x y then x :: y :: l' else y :: insert_sorted before x l'
  end.

Definition py_sorted {A} (before : A -> A -> bool) (l : list A) : list A :=
  foldr (insert_sorted before) [] l.

(** ** Archive inspector: text extraction *)

(** What [zipfile.ZipFile] gives the extractor: the entry names in archive
    order, and for a name the text that decoding the entry and feeding it
    to [HTMLTextExtractor] yields ([None] when any of that raises). *)
Record archive := {
  namelist : list string;
  entry_text : string -> option string
}.

Definition html_suffixes : list string := [".html"; ".xhtml"; ".htm"].

(** The comprehension that selects the content documents. *)
Definition is_content_name (n : string) : bool :=
  existsb (fun suf => endswith suf n) html_suffixes
  && negb (contains "toc" (lower n)).

Definition html_files (zf : archive) : list string :=
  filter (fun n => is_content_name n = true) (namelist zf).

(** The loop over the sorted names, with the running character count. *)
Fixpoint collect_text (zf : archive) (max_chars : Z) (names : list string)
    (total_chars : Z) : list string :=
  match names with
  | [] => []
  | name :: rest =>
      if (max_chars <=? total_chars)%Z then []
      else
        match entry_text zf name with
        | Some text =>
            text :: collect_text zf max_chars rest (total_chars + Z.of_nat (len text))
        | None => collect_text zf max_chars rest total_chars
        end
  end.

(** The list [text_parts] when the loop is left. *)
Definition text_parts (zf : archive) (max_chars : Z) : list string :=
  collect_text zf max_chars (py_sorted String.leb (html_files zf)) 0.

(** [extract_text_from_epub]; the archive is [None] when the file cannot be
    opened as a ZIP archive. *)
Definition extract_text_from_epub (zf : option archive) (max_chars : Z) : string :=
  match zf with
  | None => ""
  | Some zf => join " " (text_parts zf max_chars)
  end.

(** ** Metadata matcher *)

Record metadata := {
  title : option string;
  author : option string;
  language : option string
}.

Record match_result := {
  title_match : bool;
  author_match : bool;
  actual_title : option string;
  actual_author : option string
}.

(** The local function [normalize]; its argument is never [None] here. *)
Definition normalize (s : string) : string :=
  match s with
  | EmptyString => ""
  | _ =>
      let s := lower s in
      let s := keep_chars (fun c => isword c || isspace c) s in
      join " " (split s)
  end.

Definition nonempty (s : string) : bool :=
  match s with EmptyString => false | _ => true end.

Definition word_set (s : string) : gset string := list_to_set (split s).

(** The title test: enough common words. *)
Definition title_rule (expected_title_norm actual_title_norm : string) : bool :=
  nonempty expected_title_norm && nonempty actual_title_norm &&
  let expected_words := word_set expected_title_norm in
  let actual_words := word_set actual_title_norm in
  let common := expected_words ∩ actual_words in
  bool_decide (Nat.min 2 (size expected_words) ≤ size common).

(** The author test: some pair of name parts, each longer than two
    characters, one inside the other. *)
Definition author_rule (expected_author_norm actual_author_norm : string) : bool :=
  nonempty expected_author_norm && nonempty actual_author_norm &&
  let expected_parts := split expected_author_norm in
  let actual_parts := split actual_author_norm in
  existsb (fun ep =>
    (2 <? len ep) &&
    existsb (fun ap => (2 <? len ap) && (contains ep ap || contains ap ep))
      actual_parts) expected_parts.

Definition verify_metadata (expected_title expected_author : string)
    (actual_metadata : metadata) : match_result :=
  let result := {| title_match := false; author_match := false;
                   actual_title := title actual_metadata;
                   actual_author := author actual_metadata |} in
  if negb (truthy (title actual_metadata)) || negb (truthy (author actual_metadata))
  then result
  else
    let expected_title_norm := normalize expected_title in
    let expected_author_norm := normalize expected_author in
    let actual_title_norm := normalize (default "" (title actual_metadata)) in
    let actual_author_norm := normalize (default "" (author actual_metadata)) in
    {| title_match := title_rule expected_title_norm actual_title_norm;
       author_match := author_rule expected_author_norm actual_author_norm;
       actual_title := title actual_metadata;
       actual_author := author actual_metadata |}.

(** ** Language detector *)

Definition lang_markers : list (string * list string) :=
  [ ("de", ["der"; "die"; "das"; "und"; "ist"; "nicht"; "sie"; "ich"; "ein"; "eine"]);
    ("es", ["el"; "la"; "los"; "las"; "que"; "de"; "en"; "es"; "por"; "con"]);
    ("fr", ["le"; "la"; "les"; "des"; "est"; "sont"; "nous"; "vous"; "pas"; "qui"]);
    ("en", ["the"; "and"; "is"; "are"; "was"; "were"; "have"; "has"; "been"; "will"]) ].

(** [sum (1 for w in words if f' {w} ' in text_lower)] *)
Definition marker_score (words : list string) (text_lower : string) : nat :=
  length (filter (fun w => contains (" " +:+ w +:+ " ") text_lower = true) words).

(** [max (scores, key=scores.get)] over the keys in insertion order: a
    later key wins only with a strictly larger value. *)
Fixpoint max_first (best : string * nat) (l : list (string * nat)) : string * nat :=
  match l with
  | [] => best
  | x :: l' => max_first (if snd best <? snd x then x else best) l'
  end.

Definition language_scores (text : string) : list (string * nat) :=
  let text_lower := lower text in
  map (fun '(lang, words) => (lang, marker_score words text_lower)) lang_markers.

(** The table of scores is not empty, so [max] does not raise. *)
Definition detect_language (text : string) : string :=
  match language_scores text with
  | [] => ""
  | x :: l => fst (max_first x l)
  end.

(** ** Theme keywords and labels *)

Definition THEME_KEYWORDS : list (string * list (string * list string)) :=
  [
    ("en",
    [
      ("coming_of_age", map u ["growing up"; "childhood"; "youth"; "adolescent"; "mature"; "coming of age"; "rite of passage"; "innocence"; "adulthood"]);
      ("self_discovery", map u ["identity"; "self"; "soul"; "purpose"; "meaning"; "destiny"; "truth"; "enlightenment"; "awakening"; "realization"]);
      ("love_romance", map u ["love"; "heart"; "passion"; "beloved"; "marriage"; "romance"; "affection"; "devotion"; "desire"]);
      ("morality", map u ["moral"; "virtue"; "sin"; "conscience"; "duty"; "honor"; "righteous"; "ethical"; "good"; "evil"; "temptation"]);
      ("social_criticism", map u ["society"; "class"; "poverty"; "wealth"; "injustice"; "oppression"; "inequality"; "corruption"; "hypocrisy"]);
      ("adventure", map u ["adventure"; "journey"; "quest"; "explore"; "discover"; "voyage"; "expedition"; "danger"; "brave"; "hero"]);
      ("nature", map u ["nature"; "forest"; "mountain"; "sea"; "river"; "wild"; "animal"; "natural"; "landscape"]);
      ("death_mortality", map u ["death"; "die"; "grave"; "mortal"; "funeral"; "ghost"; "afterlife"; "eternal"; "fate"]);
      ("family", map u ["family"; "father"; "mother"; "brother"; "sister"; "parent"; "child"; "home"; "heritage"]);
      ("war_conflict", map u ["war"; "battle"; "soldier"; "army"; "enemy"; "fight"; "conflict"; "peace"; "victory"; "defeat"]);
      ("freedom", map u ["freedom"; "liberty"; "free"; "escape"; "prison"; "captive"; "chains"; "independence"]);
      ("faith_religion", map u ["god"; "faith"; "prayer"; "church"; "soul"; "heaven"; "divine"; "spirit"; "holy"; "salvation"]);
      ("ambition", map u ["ambition"; "power"; "success"; "glory"; "fame"; "fortune"; "aspiration"; "dream"; "goal"]);
      ("isolation", map u ["alone"; "lonely"; "solitude"; "isolation"; "exile"; "outcast"; "stranger"; "alienation"]) ]);
    ("de",
    [
      ("coming_of_age", map u ["erwachsen"; "jugend"; "kindheit"; "reife"; "entwicklung"; "bildung"; "lehrjahre"]);
      ("self_discovery", map u ["selbst"; "seele"; "identität"; "sinn"; "wahrheit"; "erkenntnis"; "erwachen"; "bestimmung"]);
      ("love_romance", map u ["liebe"; "herz"; "leidenschaft"; "ehe"; "hochzeit"; "zuneigung"; "sehnsucht"; "verlangen"]);
      ("morality", map u ["moral"; "tugend"; "sünde"; "gewissen"; "pflicht"; "ehre"; "gut"; "böse"; "schuld"]);
      ("social_criticism", map u ["gesellschaft"; "klasse"; "armut"; "reichtum"; "ungerechtigkeit"; "unterdrückung"; "bürger"]);
      ("adventure", map u ["abenteuer"; "reise"; "fahrt"; "entdeckung"; "gefahr"; "held"; "mut"; "wagnis"]);
      ("nature", map u ["natur"; "wald"; "berg"; "meer"; "fluss"; "wild"; "tier"; "landschaft"]);
      ("death_mortality", map u ["tod"; "sterben"; "grab"; "sterblich"; "geist"; "ewigkeit"; "schicksal"; "ende"]);
      ("family", map u ["familie"; "vater"; "mutter"; "bruder"; "schwester"; "eltern"; "kind"; "heim"; "erbe"]);
      ("war_conflict", map u ["krieg"; "kampf"; "soldat"; "heer"; "feind"; "schlacht"; "frieden"; "sieg"; "niederlage"]);
      ("freedom", map u ["freiheit"; "frei"; "flucht"; "gefängnis"; "ketten"; "befreiung"; "unabhängigkeit"]);
      ("faith_religion", map u ["gott"; "glaube"; "gebet"; "kirche"; "seele"; "himmel"; "heilig"; "erlösung"; "segen"]);
      ("ambition", map u ["ehrgeiz"; "macht"; "erfolg"; "ruhm"; "traum"; "ziel"; "streben"; "aufstieg"]);
      ("isolation", map u ["einsamkeit"; "allein"; "einsam"; "fremd"; "außenseiter"; "verbannt"; "verlassen"]) ]);
    ("es",
    [
      ("coming_of_age", map u ["crecer"; "juventud"; "infancia"; "madurez"; "adolescencia"; "formación"]);
      ("self_discovery", map u ["identidad"; "alma"; "sentido"; "verdad"; "destino"; "despertar"; "iluminación"]);
      ("love_romance", map u ["amor"; "corazón"; "pasión"; "matrimonio"; "boda"; "deseo"; "cariño"; "enamorado"]);
      ("morality", map u ["moral"; "virtud"; "pecado"; "conciencia"; "deber"; "honor"; "bien"; "mal"; "culpa"]);
      ("social_criticism", map u ["sociedad"; "clase"; "pobreza"; "riqueza"; "injusticia"; "opresión"; "corrupción"]);
      ("adventure", map u ["aventura"; "viaje"; "búsqueda"; "explorar"; "peligro"; "héroe"; "valiente"]);
      ("nature", map u ["naturaleza"; "bosque"; "montaña"; "mar"; "río"; "salvaje"; "animal"; "paisaje"]);
      ("death_mortality", map u ["muerte"; "morir"; "tumba"; "mortal"; "fantasma"; "eternidad"; "destino"]);
      ("family", map u ["familia"; "padre"; "madre"; "hermano"; "hermana"; "hijo"; "hogar"; "herencia"]);
      ("war_conflict", map u ["guerra"; "batalla"; "soldado"; "ejército"; "enemigo"; "lucha"; "paz"; "victoria"]);
      ("freedom", map u ["libertad"; "libre"; "escape"; "prisión"; "cadenas"; "independencia"; "liberación"]);
      ("faith_religion", map u ["dios"; "fe"; "oración"; "iglesia"; "alma"; "cielo"; "sagrado"; "salvación"]);
      ("ambition", map u ["ambición"; "poder"; "éxito"; "gloria"; "fama"; "sueño"; "meta"; "fortuna"]);
      ("isolation", map u ["soledad"; "solo"; "solitario"; "aislamiento"; "exilio"; "extranjero"; "abandonado"]) ]);
    ("fr",
    [
      ("coming_of_age", map u ["grandir"; "jeunesse"; "enfance"; "maturité"; "adolescence"; "formation"]);
      ("self_discovery", map u ["identité"; "âme"; "sens"; "vérité"; "destin"; "éveil"; "illumination"]);
      ("love_romance", map u ["amour"; "coeur"; "passion"; "mariage"; "noces"; "désir"; "tendresse"; "amoureux"]);
      ("morality", map u ["moral"; "vertu"; "péché"; "conscience"; "devoir"; "honneur"; "bien"; "mal"; "culpabilité"]);
      ("social_criticism", map u ["société"; "classe"; "pauvreté"; "richesse"; "injustice"; "oppression"; "corruption"]);
      ("adventure", map u ["aventure"; "voyage"; "quête"; "explorer"; "danger"; "héros"; "brave"]);
      ("nature", map u ["nature"; "forêt"; "montagne"; "mer"; "rivière"; "sauvage"; "animal"; "paysage"]);
      ("death_mortality", map u ["mort"; "mourir"; "tombe"; "mortel"; "fantôme"; "éternité"; "destin"]);
      ("family", map u ["famille"; "père"; "mère"; "frère"; "soeur"; "enfant"; "foyer"; "héritage"]);
      ("war_conflict", map u ["guerre"; "bataille"; "soldat"; "armée"; "ennemi"; "lutte"; "paix"; "victoire"]);
      ("freedom", map u ["liberté"; "libre"; "évasion"; "prison"; "chaînes"; "indépendance"; "libération"]);
      ("faith_religion", map u ["dieu"; "foi"; "prière"; "église"; "âme"; "ciel"; "sacré"; "salut"]);
      ("ambition", map u ["ambition"; "pouvoir"; "succès"; "gloire"; "renommée"; "rêve"; "but"; "fortune"]);
      ("isolation", map u ["solitude"; "seul"; "solitaire"; "isolement"; "exil"; "étranger"; "abandonné"]) ]) ].

Definition THEME_LABELS : list (string * string) :=
  [
    ("coming_of_age", "Coming of Age");
    ("self_discovery", "Self-Discovery");
    ("love_romance", "Love & Romance");
    ("morality", "Morality & Ethics");
    ("social_criticism", "Social Criticism");
    ("adventure", "Adventure");
    ("nature", "Nature");
    ("death_mortality", "Death & Mortality");
    ("family", "Family");
    ("war_conflict", "War & Conflict");
    ("freedom", "Freedom");
    ("faith_religion", "Faith & Religion");
    ("ambition", "Ambition & Power");
    ("isolation", "Isolation & Alienation") ].

(** [d.get (k)] on a dictionary literal. *)
Fixpoint dict_get {V} (d : list (string * V)) (k : string) : option V :=
  match d with
  | [] => None
  | (k', v) :: d' => if String.eqb k' k then Some v else dict_get d' k
  end.

(** ** Readability scorer *)

Record difficulty := {
  grade_level : option Q;
  cefr : option string;
  error : option string;
  result_language : option string
}.

Definition is_terminator (c : ascii) : bool :=
  (ord c =? 46)%N || (ord c =? 33)%N || (ord c =? 63)%N.

(** [len (re.findall ('[.!?]+', s))]: the number of maximal runs of
    terminators; [in_run] tells that the previous character was one. *)
Fixpoint count_runs (in_run : bool) (s : string) : nat :=
  match s with
  | EmptyString => 0
  | String c s' =>
      if is_terminator c
      then (if in_run then 0 else 1) + count_runs true s'
      else count_runs false s'
  end.

(** [c in s] for a character [c]. *)
Fixpoint char_in (c : ascii) (s : string) : bool :=
  match s with
  | EmptyString => false
  | String d s' => if ascii_dec c d then true else char_in c s'
  end.

(** The vowels of the fallback syllable counter.  The last letter of the
    source's literal, U+0153, is beyond the repertoire: no character of a
    text can be equal to it. *)
Definition vowels : string := u "aeiouyäöüáéíóúàèìòùâêîôûæœ".

(** The loop of [count_syllables]: vowel-cluster starts. *)
Fixpoint vowel_groups (prev_vowel : bool) (word : string) : nat :=
  match word with
  | EmptyString => 0
  | String char word' =>
      let is_vowel := char_in char vowels in
      (if is_vowel && negb prev_vowel then 1 else 0) + vowel_groups is_vowel word'
  end.

Definition sum_list (l : list nat) : nat := foldr Nat.add 0 l.

Definition fk_grade (word_count sentences syllable_count : nat) : Q :=
  let avg_sentence_length := (inject_Z (Z.of_nat word_count) / inject_Z (Z.of_nat sentences))%Q in
  let avg_syllables_per_word := (inject_Z (Z.of_nat syllable_count) / inject_Z (Z.of_nat word_count))%Q in
  ((39 # 100) * avg_sentence_length + (118 # 10) * avg_syllables_per_word - (1559 # 100))%Q.

(** The optional packages, as the module finds them when it is loaded.
    [flesch_kincaid_grade lang text] is what [textstat.set_lang (lang)]
    followed by [textstat.flesch_kincaid_grade (text)] returns, and
    [pyphen_inserted locale word] is
    [pyphen.Pyphen (lang=locale).inserted (word)]; [None] is a raised
    exception. *)
Record packages := {
  TEXTSTAT_AVAILABLE : bool;
  flesch_kincaid_grade : string -> string -> option Q;
  PYPHEN_AVAILABLE : bool;
  pyphen_inserted : string -> string -> option string
}.

(** Neither package is installed. *)
Definition no_packages : packages :=
  {| TEXTSTAT_AVAILABLE := false; flesch_kincaid_grade := fun _ _ => None;
     PYPHEN_AVAILABLE := false; pyphen_inserted := fun _ _ => None |}.

Definition pyphen_lang_map : list (string * string) :=
  [("en", "en_US"); ("de", "de_DE"); ("es", "es_ES"); ("fr", "fr_FR")].

Definition textstat_lang_map : list (string * string) :=
  [("en", "en"); ("de", "de"); ("es", "es"); ("fr", "fr")].

(** The text after [re.sub ('[^\w\s.!?]', '', text)]. *)
Definition cleanup (text : string) : string :=
  keep_chars (fun c => isword c || isspace c || is_terminator c) text.

(** [lang] when it is given, else the detected language. *)
Definition resolve_language (text : string) (lang : option string) : string :=
  if truthy lang then default "" lang else detect_language text.

Section Scorer.

Variable pk : packages.

Definition count_syllables (word lang : string) : nat :=
  let fallback := Nat.max 1 (vowel_groups false (lower word)) in
  if PYPHEN_AVAILABLE pk then
    match pyphen_inserted pk (default "en_US" (dict_get pyphen_lang_map lang)) word with
    | Some hyphenated => length (split_on "-" hyphenated)
    | None => fallback
    end
  else fallback.

(** The grade of the preferred tier, when textstat is there and does
    not raise. *)
Definition textstat_grade (text lang : string) : option Q :=
  if TEXTSTAT_AVAILABLE pk
  then flesch_kincaid_grade pk (default "en" (dict_get textstat_lang_map lang)) text
  else None.

(** The manual calculation at the end of [calculate_reading_difficulty]. *)
Definition manual_calculation (text lang : string) : difficulty :=
  let text := cleanup text in
  let sentences := Nat.max 1 (count_runs false text) in
  let words := split text in
  let word_count := length words in
  if word_count <? 10 then
    {| grade_level := None; cefr := None; error := Some "Not enough words";
       result_language := None |}
  else
    let syllable_count := sum_list (map (fun w => count_syllables w lang) words) in
    let grade := fk_grade word_count sentences syllable_count in
    {| grade_level := Some (round1 (max0 grade));
       cefr := grade_to_cefr (Some grade);
       error := None;
       result_language := Some lang |}.

Definition calculate_reading_difficulty (text : string) (lang : option string)
    : difficulty :=
  if negb (nonempty text) || (len text <? 100) then
    {| grade_level := None; cefr := None; error := Some "Text too short";
       result_language := None |}
  else
    let lang := resolve_language text lang in
    match textstat_grade text lang with
    | Some grade =>
        {| grade_level := Some (round1 grade);
           cefr := grade_to_cefr (Some grade);
           error := None;
           result_language := Some lang |}
    | None => manual_calculation text lang
    end.

End Scorer.

(** ** Theme detector *)

Definition head_char (s : string) : option ascii :=
  match s with EmptyString => None | String c _ => Some c end.

Fixpoint last_char (prev : option ascii) (s : string) : option ascii :=
  match s with EmptyString => prev | String c s' => last_char (Some c) s' end.

Fixpoint drop_chars (n : nat) (s : string) : string :=
  match n, s with
  | S n', String _ s' => drop_chars n' s'
  | _, _ => s
  end.

(** The regex assertion [\b] between two neighbours; [None] is an end of
    the text. *)
Definition word_boundary (prev next : option ascii) : bool :=
  xorb (from_option isword false prev) (from_option isword false next).

(** Does [\b keyword \b] match where [s] starts, [prev] being the
    character in front?  With [re.IGNORECASE] characters are compared up
    to case. *)
Definition match_at (keyword : string) (prev : option ascii) (s : string) : bool :=
  word_boundary prev (head_char s)
  && startswith (lower keyword) (lower s)
  && word_boundary (last_char prev keyword) (head_char (drop_chars (len keyword) s)).

(** [len (re.findall (pattern, s, re.IGNORECASE))] for the pattern
    ['\b' + re.escape (keyword) + '\b'] and a non-empty keyword: matches
    are found left to right and do not overlap, so after a match the
    search resumes behind it ([skip] characters are passed over). *)
Fixpoint count_matches_from (keyword : string) (prev : option ascii) (skip : nat)
    (s : string) : nat :=
  match s with
  | EmptyString => 0
  | String c s' =>
      match skip with
      | S k => count_matches_from keyword (Some c) k s'
      | O =>
          if match_at keyword prev s
          then S (count_matches_from keyword (Some c) (len keyword - 1) s')
          else count_matches_from keyword (Some c) 0 s'
      end
  end.

Definition count_matches (keyword text : string) : nat :=
  count_matches_from keyword None 0 text.

(** The sum over one theme's keywords. *)
Definition theme_raw_count (theme_keywords : list string) (text_lower : string) : nat :=
  sum_list (map (fun keyword => count_matches keyword text_lower) theme_keywords).

Definition normalized_score (score word_count : nat) : Q :=
  (inject_Z (Z.of_nat score) / inject_Z (Z.of_nat word_count) * 10000)%Q.

(** [theme_scores.items ()]: the themes with a positive count, in the
    order of the taxonomy. *)
Fixpoint theme_scores (keywords : list (string * list string)) (text_lower : string)
    (word_count : nat) : list (string * Q) :=
  match keywords with
  | [] => []
  | (theme_id, theme_keywords) :: rest =>
      let score := theme_raw_count theme_keywords text_lower in
      if 0 <? score
      then (theme_id, normalized_score score word_count) :: theme_scores rest text_lower word_count
      else theme_scores rest text_lower word_count
  end.

(** [l[:n]] *)
Definition slice_to {A} (n : Z) (l : list A) : list A :=
  if (0 <=? n)%Z then take (Z.to_nat n) l
  else take (length l - Z.to_nat (- n)) l.

(** The order of [sorted (..., key=lambda x: x[1], reverse=True)]. *)
Definition score_before (x y : string * Q) : bool := Qleb (snd y) (snd x).

Definition theme_label (theme_id : string) : string :=
  default theme_id (dict_get THEME_LABELS theme_id).

(** [THEME_KEYWORDS.get (lang, THEME_KEYWORDS['en'])] *)
Definition taxonomy (lang : string) : list (string * list string) :=
  default (default [] (dict_get THEME_KEYWORDS "en")) (dict_get THEME_KEYWORDS lang).

Definition detect_themes (text : string) (lang : option string) (top_n : Z)
    : list string :=
  if negb (nonempty text) then []
  else
    let lang := resolve_language text lang in
    let keywords := taxonomy lang in
    let text_lower := lower text in
    let word_count := length (split text) in
    if word_count =? 0 then []
    else
      let sorted_themes := py_sorted score_before (theme_scores keywords text_lower word_count) in
      map (fun x => theme_label (fst x))
        (filter (fun x => Qleb 1 (snd x) = true) (slice_to top_n sorted_themes)).

(** ** Definitions used in the statements *)

Definition bands : list string := ["A1"; "A2"; "B1"; "B2"; "C1"; "C2"].

(** A word: not empty, and without whitespace. *)
Fixpoint no_space (s : string) : Prop :=
  match s with
  | EmptyString => True
  | String c s' => isspace c = false /\ no_space s'
  end.

Definition is_word_token (w : string) : Prop := w <> "" /\ no_space w.



(** The text between lowercasing and word splitting in [normalize]. *)
Definition clean (s : string) : string :=
  keep_chars (fun c => isword c || isspace c) (lower s).

Definition tom_sawyer : metadata :=
  {| title := Some "Adventures of Tom Sawyer"; author := Some "Samuel Clemens";
     language := None |}.

Definition emma : metadata :=
  {| title := Some "Emma"; author := Some "Jane Austen"; language := None |}.

(** [p] occurs in [s]. *)
Definition is_substring (p s : string) : Prop :=
  exists pre post, s = pre +:+ p +:+ post.

(** The claim's reading of the score, in the spec's words: the number of
    occurrences of each marker, as [" word "], summed over the markers. *)
Fixpoint count_occurrences (p s : string) : nat :=
  (if startswith p s then 1 else 0) +
  match s with
  | EmptyString => 0
  | String _ s' => count_occurrences p s'
  end.

Definition occurrence_total (lang text : string) : nat :=
  sum_list (map (fun w => count_occurrences (" " +:+ w +:+ " ") (lower text))
              (default [] (dict_get lang_markers lang))).

Definition mixed_text : string := " the cat the dog the der die ".

(** All characters of [s] satisfy [P]. *)
Fixpoint all_chars (P : ascii -> bool) (s : string) : Prop :=
  match s with
  | EmptyString => True
  | String c s' => P c = true /\ all_chars P s'
  end.

(** [s] does not begin with a terminator. *)
Definition no_terminator_ahead (s : string) : Prop :=
  match s with
  | EmptyString => True
  | String c _ => is_terminator c = false
  end.

(** The three counts of the manual calculation. *)
Definition word_count (text : string) : nat := length (split (cleanup text)).

Definition sentence_count (text : string) : nat :=
  Nat.max 1 (count_runs false (cleanup text)).

Definition syllable_count (pk : packages) (text lang : string) : nat :=
  sum_list (map (fun w => count_syllables pk w lang) (split (cleanup text))).

Definition too_short : difficulty :=
  {| grade_level := None; cefr := None; error := Some "Text too short";
     result_language := None |}.





(** * The rest of the pipeline *)

(** ** Markup stripping: [HTMLTextExtractor] *)

(** What [HTMLParser.feed] calls on the extractor, in document order.  The
    parser itself is Python's. *)
Inductive html_event :=
  | Starttag (tag : string)
  | Endtag (tag : string)
  | Data (data : string).

Definition skip_tags : list string := ["script"; "style"; "head"; "meta"; "link"].

(** [tag.lower () in self.skip_tags] *)
Definition in_skip_tags (tag : string) : bool :=
  existsb (String.eqb (lower tag)) skip_tags.

(** The fields [self.text_parts] and [self.skip]. *)
Record extractor := {
  extractor_parts : list string;
  skip : bool
}.

(** [HTMLTextExtractor ()] *)
Definition new_extractor : extractor := {| extractor_parts := []; skip := false |}.

Definition handle_starttag (self : extractor) (tag : string) : extractor :=
  if in_skip_tags tag
  then {| extractor_parts := extractor_parts self; skip := true |}
  else self.

Definition handle_endtag (self : extractor) (tag : string) : extractor :=
  if in_skip_tags tag
  then {| extractor_parts := extractor_parts self; skip := false |}
  else self.

Definition handle_data (self : extractor) (data : string) : extractor :=
  if skip self then self
  else {| extractor_parts := extractor_parts self ++ [data]; skip := skip self |}.

Definition handle (self : extractor) (ev : html_event) : extractor :=
  match ev with
  | Starttag tag => handle_starttag self tag
  | Endtag tag => handle_endtag self tag
  | Data data => handle_data self data
  end.

(** [self.feed (content)], the content given as the parser's events. *)
Definition feed (self : extractor) (events : list html_event) : extractor :=
  fold_left handle events self.

Definition get_text (self : extractor) : string := join " " (extractor_parts self).

(** The data chunks of a document, in order. *)
Definition data_of (events : list html_event) : list string :=
  omap (fun ev => match ev with Data d => Some d | _ => None end) events.

Definition is_skip_start (ev : html_event) : Prop :=
  match ev with Starttag tag => in_skip_tags tag = true | _ => False end.

Definition is_skip_end (ev : html_event) : Prop :=
  match ev with Endtag tag => in_skip_tags tag = true | _ => False end.

(** ** Archive inspector: metadata *)

(** The double quote. *)
Definition dquote : ascii := chr 34.

(** The longest front part of [s] whose characters satisfy [P], and what
    is left behind it: a greedy character class. *)
Fixpoint take_while (P : ascii -> bool) (s : string) : string :=
  match s with
  | EmptyString => EmptyString
  | String c s' => if P c then String c (take_while P s') else EmptyString
  end.

Fixpoint drop_while (P : ascii -> bool) (s : string) : string :=
  match s with
  | EmptyString => EmptyString
  | String c s' => if P c then drop_while P s' else s
  end.

Definition is_not (d : ascii) (c : ascii) : bool := negb (Ascii.eqb c d).

(** [s.lstrip ()], [s.rstrip ()] and [s.strip ()] *)
Fixpoint lstrip (s : string) : string :=
  match s with
  | EmptyString => EmptyString
  | String c s' => if isspace c then lstrip s' else s
  end.

Fixpoint rstrip (s : string) : string :=
  match s with
  | EmptyString => EmptyString
  | String c s' =>
      match rstrip s' with
      | EmptyString => if isspace c then EmptyString else String c EmptyString
      | r => String c r
      end
  end.

Definition strip (s : string) : string := rstrip (lstrip s).

(** [s[:n]] for [n >= 0] *)
Fixpoint take_chars (n : nat) (s : string) : string :=
  match n, s with
  | S n', String c s' => String c (take_chars n' s')
  | _, _ => EmptyString
  end.

(** Does ['<TAG[^>]*>([^<]+)</TAG>'] match where [s] starts, under
    [re.IGNORECASE]?  The result is group 1.  Both classes are greedy, and
    neither can give back a character: what follows each is a character
    the class excludes. *)
Definition match_element_at (tag s : string) : option string :=
  let opener := "<" +:+ tag in
  let closer := "</" +:+ tag +:+ ">" in
  if startswith (lower opener) (lower s) then
    match drop_while (is_not ">") (drop_chars (len opener) s) with
    | EmptyString => None
    | String _ inner =>
        let group := take_while (is_not "<") inner in
        if nonempty group
           && startswith (lower closer) (lower (drop_while (is_not "<") inner))
        then Some group
        else None
    end
  else None.

(** [re.search]: the match that starts first. *)
Fixpoint search_element (tag s : string) : option string :=
  match match_element_at tag s with
  | Some group => Some group
  | None =>
      match s with
      | EmptyString => None
      | String _ s' => search_element tag s'
      end
  end.

(** The same for the pattern that finds the package file in
    [container.xml]: [full-path=], a double quote, group 1, a double quote,
    where group 1 is one or more characters other than a double quote
    followed by [.opf].  So group 1 is all the characters up to the next
    double quote, and they must end in [.opf] behind at least one
    character. *)
Definition match_full_path_at (s : string) : option string :=
  let prefix := "full-path=" +:+ String dquote "" in
  if startswith prefix s then
    let rest := drop_chars (len prefix) s in
    let value := take_while (is_not dquote) rest in
    match drop_while (is_not dquote) rest with
    | EmptyString => None
    | String _ _ =>
        if endswith ".opf" value && (4 <? len value) then Some value else None
    end
  else None.

Fixpoint search_full_path (s : string) : option string :=
  match match_full_path_at s with
  | Some value => Some value
  | None =>
      match s with
      | EmptyString => None
      | String _ s' => search_full_path s'
      end
  end.

(** The archive as the metadata reader uses it: the entry names, and an
    entry's content decoded the way the reader decodes it ([None] when
    reading or decoding raises). *)
Record epub := {
  epub_namelist : list string;
  epub_read : string -> option string
}.

(** The initial [metadata] dictionary. *)
Definition no_metadata : metadata :=
  {| title := None; author := None; language := None |}.

(** The path of the package file: the first entry that ends in [.opf], or
    else the one that [META-INF/container.xml] names. *)
Definition opf_path (zf : epub) : option string :=
  match list_find (fun n => endswith ".opf" n = true) (epub_namelist zf) with
  | Some (_, name) => Some name
  | None =>
      match epub_read zf "META-INF/container.xml" with
      | Some container => search_full_path container
      | None => None
      end
  end.

(** The three fields as they are read off the package file. *)
Definition manifest_fields (opf_content : string) : metadata :=
  {| title := strip <$> search_element "dc:title" opf_content;
     author := strip <$> search_element "dc:creator" opf_content;
     language := (fun l => lower (take_chars 2 (strip l)))
                 <$> search_element "dc:language" opf_content |}.

(** [extract_epub_metadata]; the archive is [None] when the file cannot be
    opened as a ZIP archive. *)
Definition extract_epub_metadata (zf : option epub) : metadata :=
  match zf with
  | None => no_metadata
  | Some zf =>
      match opf_path zf with
      | None => no_metadata
      | Some path =>
          match epub_read zf path with
          | None => no_metadata
          | Some opf_content => manifest_fields opf_content
          end
      end
  end.

(** No character of [s] is [c]. *)
Definition lacks (c : ascii) (s : string) : Prop := char_in c s = false.

Definition moby_opf : string :=
  "<package><metadata><dc:title id='t'> Moby Dick </dc:title><dc:creator>Herman Melville</dc:creator><dc:language>en-US</dc:language></metadata></package>".

Definition moby_epub : epub :=
  {| epub_namelist := ["mimetype"; "OEBPS/content.opf"; "OEBPS/ch1.xhtml"];
     epub_read := fun n => if String.eqb n "OEBPS/content.opf" then Some moby_opf else None |}.


Definition container_xml : string :=
  "<container><rootfiles><rootfile full-path=" +:+ String dquote "OEBPS/content.opf"
  +:+ String dquote " media-type='application/oebps-package+xml'/></rootfiles></container>".

(** ** Download *)

(** What the download functions do to the outside: the files they write or
    remove, and the requests they send, oldest first. *)
Inductive request :=
  | Fetch (url : string)
  | Search (title author : string)
  | Metadata (identifier : string).

Record world := {
  files : gmap string string;
  requests : list request
}.

(** The outside as the functions find it.  [urlopen url] is the body of
    the response; [ia_docs title author] is the list of documents of the
    search response, each with its identifier when it has one;
    [ia_files identifier] is the list of the file names of the item;
    [None] is a raised exception.  [path_join] is [os.path.join]. *)
Record environment := {
  urlopen : string -> option string;
  ia_docs : string -> string -> option (list (option string));
  ia_files : string -> option (list string);
  path_join : string -> string -> string
}.

Definition log (r : request) (w : world) : world :=
  {| files := files w; requests := requests w ++ [r] |}.

(** [try_download_url] *)
Definition try_download_url (env : environment) (url filepath : string)
    (min_size : Z) (w : world) : bool * world :=
  let w := log (Fetch url) w in
  match urlopen env url with
  | Some data =>
      if negb (startswith "PK" data) then (false, w)
      else if (Z.of_nat (len data) <? min_size)%Z then (false, w)
      else (true, {| files := <[filepath := data]> (files w); requests := requests w |})
  | None =>
      (false, {| files := delete filepath (files w); requests := requests w |})
  end.

(** The sort key [(0 if '_lcp.epub' in x else 1, x)] and its order. *)
Definition lcp_rank (x : string) : nat := if contains "_lcp.epub" x then 0 else 1.

Definition lcp_before (x y : string) : bool :=
  (lcp_rank x <? lcp_rank y) || ((lcp_rank x =? lcp_rank y) && String.leb x y).

Definition archive_url (identifier name : string) : string :=
  "https://archive.org/download/" +:+ identifier +:+ "/" +:+ name.

(** The loop over the documents.  A document without an identifier raises
    in the loop, which ends the search with the addresses found so far;
    an item that cannot be read is passed over. *)
Fixpoint archive_urls (env : environment) (docs : list (option string)) (w : world)
    : list string * world :=
  match docs with
  | [] => ([], w)
  | None :: _ => ([], w)
  | Some identifier :: rest =>
      let w := log (Metadata identifier) w in
      let urls :=
        match ia_files env identifier with
        | Some names =>
            let epub_files := filter (fun name => endswith ".epub" name = true) names in
            map (archive_url identifier) (py_sorted lcp_before epub_files)
        | None => []
        end in
      let '(more, w) := archive_urls env rest w in
      (urls ++ more, w)
  end.

(** [search_internet_archive] *)
Definition search_internet_archive (env : environment) (title author : string)
    (w : world) : list string * world :=
  let w := log (Search title author) w in
  match ia_docs env title author with
  | Some docs => archive_urls env (take 3 docs) w
  | None => ([], w)
  end.

(** A book of the configuration; [book_url] and [book_gutenberg_id] are
    the values of [book.get ('url', '')] and [book.get ('gutenberg_id', 0)],
    [None] for a null. *)
Record book := {
  book_title : string;
  book_author : string;
  book_filename : string;
  book_url : option string;
  book_gutenberg_id : option Z
}.

(** The status dictionary of [download_book]. *)
Record download_result := {
  downloaded : bool;
  already_exists : bool;
  source : option string;
  size_kb : Q;
  download_error : option string
}.

(** [os.path.getsize (filepath) / 1024] *)
Definition file_size_kb (w : world) (filepath : string) : Q :=
  (inject_Z (Z.of_nat (len (default "" (files w !! filepath)))) / 1024)%Q.

(** The loop over the addresses of the Internet Archive. *)
Fixpoint try_urls (env : environment) (urls : list string) (filepath : string)
    (w : world) : bool * world :=
  match urls with
  | [] => (false, w)
  | url :: rest =>
      let '(ok, w) := try_download_url env url filepath 10000 w in
      if ok then (true, w) else try_urls env rest filepath w
  end.

(** [gutenberg_id == 0], and [gutenberg_id and gutenberg_id > 0] *)
Definition id_is_zero (gutenberg_id : option Z) : bool :=
  match gutenberg_id with Some n => (n =? 0)%Z | None => false end.

Definition id_is_positive (gutenberg_id : option Z) : bool :=
  match gutenberg_id with Some n => (0 <? n)%Z | None => false end.

Definition failed (message : string) : download_result :=
  {| downloaded := false; already_exists := false; source := None; size_kb := 0;
     download_error := Some message |}.

Definition fetched (label : string) (w : world) (filepath : string) : download_result :=
  {| downloaded := true; already_exists := false; source := Some label;
     size_kb := file_size_kb w filepath; download_error := None |}.

(** The end of [download_book], behind the primary address: the
    Internet Archive, when the book has a positive Gutenberg number. *)
Definition try_archive (env : environment) (b : book) (filepath : string)
    (w : world) : download_result * world :=
  if id_is_positive (book_gutenberg_id b)
  then
    let '(ia_urls, w) := search_internet_archive env (book_title b) (book_author b) w in
    let '(ok, w) := try_urls env ia_urls filepath w in
    if ok then (fetched "Internet Archive" w filepath, w)
    else (failed "Could not download from any source", w)
  else (failed "Could not download from any source", w).

(** [download_book] *)
Definition download_book (env : environment) (b : book) (output_dir : string)
    (w : world) : download_result * world :=
  let filepath := path_join env output_dir (book_filename b) in
  match files w !! filepath with
  | Some _ =>
      ({| downloaded := false; already_exists := true; source := None;
          size_kb := file_size_kb w filepath; download_error := None |}, w)
  | None =>
      if negb (truthy (book_url b)) && id_is_zero (book_gutenberg_id b)
      then (failed "No source available (marked as unavailable)", w)
      else
        let '(ok, w) :=
          if truthy (book_url b)
          then try_download_url env (default "" (book_url b)) filepath 10000 w
          else (false, w) in
        if ok then
          (fetched (if contains "gutenberg.org" (default "" (book_url b))
                    then "Gutenberg" else "Direct URL") w filepath, w)
        else try_archive env b filepath w
  end.

Definition is_fetch (r : request) : Prop :=
  match r with Fetch _ => True | _ => False end.

Definition is_metadata (r : request) : Prop :=
  match r with Metadata _ => True | _ => False end.

(** What [try_download_url] accepts: the ZIP signature, and the least size
    that [download_book] asks for. *)
Definition valid_epub_data (data : string) : Prop :=
  startswith "PK" data = true /\ (10000 <= Z.of_nat (len data))%Z.

Definition source_labels : list string := ["Gutenberg"; "Direct URL"; "Internet Archive"].

Definition empty_world : world := {| files := ∅; requests := [] |}.

Definition offline : environment :=
  {| urlopen := fun _ => None; ia_docs := fun _ _ => None; ia_files := fun _ => None;
     path_join := fun dir name => dir +:+ "/" +:+ name |}.

Definition emma_book : book :=
  {| book_title := "Emma"; book_author := "Jane Austen"; book_filename := "Emma_Austen.epub";
     book_url := Some "https://www.gutenberg.org/ebooks/158.epub3.images";
     book_gutenberg_id := Some 158%Z |}.

(** [n] times the character [c]. *)
Fixpoint repeat_char (c : ascii) (n : nat) : string :=
  match n with
  | O => EmptyString
  | S n' => String c (repeat_char c n')
  end.

(** A body that [try_download_url] accepts, and a network that serves it
    at every address. *)
Definition zip_data : string := "PK" +:+ repeat_char "0" (100 * 100).

Definition online : environment :=
  {| urlopen := fun _ => Some zip_data; ia_docs := fun _ _ => None; ia_files := fun _ => None;
     path_join := fun dir name => dir +:+ "/" +:+ name |}.

(** ** Cache *)

(** A row as [csv.DictReader] yields it: the fields by column name.  A
    column that the reader fills with [None], in a row shorter than the
    header, is a column without an entry: the two functions below read
    every field through [get], which makes no difference between them. *)
Abbreviation csv_row := (gmap string string).

(** [load_existing_csv], on the rows that the reader yields: all the rows
    of the file, or those in front of the one where reading raises, or
    none when there is no file. *)
Definition load_existing_csv (rows : list csv_row) : gmap string csv_row :=
  foldl (fun cache row =>
           let filename := default "" (row !! "filename") in
           if nonempty filename then <[filename := row]> cache else cache)
    ∅ rows.

(** [is_book_complete]; the argument is what [cache.get (filename)] gives. *)
Definition is_book_complete (cached_row : option csv_row) : bool :=
  match cached_row with
  | None => false
  | Some row =>
      if bool_decide (row = ∅) then false
      else if negb (bool_decide (row !! "file_exists" = Some "True")) then false
      else if negb (truthy (row !! "grade_level")) then false
      else true
  end.

(** ** One book of a category *)

(** What the rest of the run uses from Python and its library:
    [zip_open content] is [zipfile.ZipFile] on a file with that content
    ([None] when it raises), [html_events] is the tokenizer of
    [HTMLParser] ([None] when it raises), and [str_num] is [str] on a
    number, as [csv] applies it. *)
Record platform := {
  zip_open : string -> option epub;
  html_events : string -> option (list html_event);
  str_num : Q -> string
}.

(** The archive as [extract_text_from_epub] sees it: the text of an entry
    is what [HTMLTextExtractor] makes of its content. *)
Definition archive_of (pf : platform) (zf : epub) : archive :=
  {| namelist := epub_namelist zf;
     entry_text := fun name =>
       content ← epub_read zf name;
       events ← html_events pf content;
       Some (get_text (feed new_extractor events)) |}.

(** The entries of the result dictionary that [process_category] computes
    for a book it processes; the other entries repeat the configuration. *)
Record catalog_record := {
  rec_file_exists : bool;
  rec_file_size_kb : Q;
  rec_download_source : option string;
  rec_download_error : option string;
  rec_actual_title : option string;
  rec_actual_author : option string;
  rec_title_match : option bool;
  rec_author_match : option bool;
  rec_language : option string;
  rec_grade_level : option Q;
  rec_cefr : option string;
  rec_themes : list string
}.

(** Step 4 of the loop body: language, difficulty and themes of the
    extracted text, when there are more than 500 characters of it. *)
Record analysis := {
  an_language : option string;
  an_grade_level : option Q;
  an_cefr : option string;
  an_themes : list string
}.

Definition no_analysis : analysis :=
  {| an_language := None; an_grade_level := None; an_cefr := None; an_themes := [] |}.

Definition analyze (pk : packages) (epub_meta : metadata) (text : string) : analysis :=
  if nonempty text && (500 <? len text) then
    let lang :=
      if truthy (language epub_meta) then default "" (language epub_meta)
      else detect_language text in
    let difficulty := calculate_reading_difficulty pk text (Some lang) in
    {| an_language := Some lang;
       an_grade_level := grade_level difficulty;
       an_cefr := cefr difficulty;
       an_themes := detect_themes text (Some lang) 5 |}
  else no_analysis.

(** The body of the loop of [process_category] for a book that is not
    taken from the cache. *)
Definition process_book (pk : packages) (env : environment) (pf : platform)
    (b : book) (folder_path : string) (w : world) : catalog_record * world :=
  let filepath := path_join env folder_path (book_filename b) in
  let '(dl_result, w) := download_book env b folder_path w in
  let download_source := if downloaded dl_result then source dl_result else None in
  let download_error :=
    if downloaded dl_result || already_exists dl_result then None
    else if truthy (download_error dl_result) then download_error dl_result
    else None in
  match files w !! filepath with
  | Some content =>
      let epub_meta := extract_epub_metadata (zip_open pf content) in
      let verify := verify_metadata (book_title b) (book_author b) epub_meta in
      let text :=
        extract_text_from_epub (archive_of pf <$> zip_open pf content) 500000 in
      let a := analyze pk epub_meta text in
      ({| rec_file_exists := true;
          rec_file_size_kb := round1 (inject_Z (Z.of_nat (len content)) / 1024);
          rec_download_source := download_source;
          rec_download_error := download_error;
          rec_actual_title := title epub_meta;
          rec_actual_author := author epub_meta;
          rec_title_match := Some (title_match verify);
          rec_author_match := Some (author_match verify);
          rec_language := an_language a;
          rec_grade_level := an_grade_level a;
          rec_cefr := an_cefr a;
          rec_themes := an_themes a |}, w)
  | None =>
      ({| rec_file_exists := false;
          rec_file_size_kb := 0;
          rec_download_source := download_source;
          rec_download_error := download_error;
          rec_actual_title := None;
          rec_actual_author := None;
          rec_title_match := None;
          rec_author_match := None;
          rec_language := None;
          rec_grade_level := None;
          rec_cefr := None;
          rec_themes := [] |}, w)
  end.

(** ** Catalog *)

(** The values of a result dictionary. *)
Inductive value :=
  | VNone
  | VBool (b : bool)
  | VStr (s : string)
  | VNum (x : Q).

(** What [csv] writes for a value. *)
Definition csv_str (pf : platform) (v : value) : string :=
  match v with
  | VNone => ""
  | VBool true => "True"
  | VBool false => "False"
  | VStr s => s
  | VNum x => str_num pf x
  end.

Definition plain_fieldnames : list string :=
  [ "category"; "folder"; "filename";
    "expected_title"; "expected_author"; "gutenberg_id"; "note";
    "file_exists"; "file_size_kb"; "download_source"; "download_error";
    "actual_title"; "actual_author"; "title_match"; "author_match";
    "language"; "grade_level"; "cefr" ].

Definition theme_fieldnames : list string :=
  ["theme_1"; "theme_2"; "theme_3"; "theme_4"; "theme_5"].

(** The five theme columns: [themes[i] if i < len (themes) else ''] *)
Definition theme_columns (themes : list string) : list string :=
  map (fun i => default "" (themes !! i)) (seq 0 5).

(** The row that [write_csv] writes for a result, as a reader gets it
    back: every column with the text of its value.  The file format is
    taken to give back the text of a field as it was written, which
    [csv] does for text without carriage returns. *)
Definition written_row (pf : platform) (r : gmap string value) (themes : list string)
    : csv_row :=
  list_to_map
    (map (fun k => (k, csv_str pf (default (VStr "") (r !! k)))) plain_fieldnames
     ++ zip theme_fieldnames (theme_columns themes)).

(** The themes that [process_category] reads from a cached row. *)
Definition cached_themes (row : csv_row) : list string :=
  omap (fun k => if truthy (row !! k) then row !! k else None) theme_fieldnames.

Definition of_option {A} (f : A -> value) (o : option A) : value :=
  match o with Some a => f a | None => VNone end.

(** The result dictionary of a processed book: the entries of the
    configuration, [base], and over them the computed ones. *)
Definition result_fields (base : gmap string value) (r : catalog_record)
    : gmap string value :=
  <["file_exists" := VBool (rec_file_exists r)]>
  (<["file_size_kb" := VNum (rec_file_size_kb r)]>
  (<["download_source" := of_option VStr (rec_download_source r)]>
  (<["download_error" := of_option VStr (rec_download_error r)]>
  (<["actual_title" := of_option VStr (rec_actual_title r)]>
  (<["actual_author" := of_option VStr (rec_actual_author r)]>
  (<["title_match" := of_option VBool (rec_title_match r)]>
  (<["author_match" := of_option VBool (rec_author_match r)]>
  (<["language" := of_option VStr (rec_language r)]>
  (<["grade_level" := of_option VNum (rec_grade_level r)]>
  (<["cefr" := of_option VStr (rec_cefr r)]> base)))))))))).

(** The file of a book in its folder, and the text extracted from it. *)
Definition book_path (env : environment) (b : book) (folder_path : string) : string :=
  path_join env folder_path (book_filename b).

Definition book_text (pf : platform) (content : string) : string :=
  extract_text_from_epub (archive_of pf <$> zip_open pf content) 500000.

(** A platform that opens nothing and writes every number as [4.0]. *)
Definition bare_platform : platform :=
  {| zip_open := fun _ => None; html_events := fun _ => None; str_num := fun _ => "4.0" |}.

Definition analysed_record : catalog_record :=
  {| rec_file_exists := true; rec_file_size_kb := 412; rec_download_source := Some "Gutenberg";
     rec_download_error := None; rec_actual_title := Some "Emma";
     rec_actual_author := Some "Jane Austen"; rec_title_match := Some true;
     rec_author_match := Some true; rec_language := Some "en";
     rec_grade_level := Some 4%Q; rec_cefr := Some "A1";
     rec_themes := ["Love & Romance"; "Family"] |}.

(** A book on disk: a file that the platform opens as an archive with one
    chapter, whose text is thirty times the same sentence. *)
Definition story_text : string := String.concat "" (replicate 30 "Tom likes the sea. ").

Definition story_epub : epub :=
  {| epub_namelist := ["chapter1.xhtml"];
     epub_read := fun name =>
       if String.eqb name "chapter1.xhtml" then Some ("<p>" +:+ story_text +:+ "</p>")
       else None |}.

Definition story_platform : platform :=
  {| zip_open := fun _ => Some story_epub;
     html_events := fun _ => Some [Starttag "p"; Data story_text; Endtag "p"];
     str_num := fun _ => "4.0" |}.

Definition stocked_world : world :=
  {| files := {[ "classics/Emma_Austen.epub" := "PK" ]}; requests := [] |}.

(** The number of characters of a list of texts. *)
Definition total_len (parts : list string) : Z :=
  foldr (fun t n => (Z.of_nat (len t) + n)%Z) 0%Z parts.

(** Two archives with the same two chapters, stored in opposite orders. *)
Definition chapter_text (name : string) : option string :=
  if String.eqb name "ch1.xhtml" then Some "Call me Ishmael."
  else if String.eqb name "ch2.xhtml" then Some "It was a damp November."
  else None.

Definition book_in_order : archive :=
  {| namelist := ["ch1.xhtml"; "ch2.xhtml"]; entry_text := chapter_text |}.

Definition book_reversed : archive :=
  {| namelist := ["ch2.xhtml"; "ch1.xhtml"]; entry_text := chapter_text |}.

(** * Properties *)

(** ** Strings *)

Lemma app_empty (s : string) : "" +:+ s = s.
Proof. reflexivity. Qed.

Lemma app_String (a : ascii) (s t : string) : String a s +:+ t = String a (s +:+ t).
Proof. reflexivity. Qed.

Lemma startswith_spec (p s : string) :
  startswith p s = true <-> exists post, s = p +:+ post.
Proof.
  revert s. induction p as [|a p IH]; intros s.
  - split; [intros _; exists s; reflexivity | reflexivity].
  - destruct s as [|b s]; simpl.
    + split; [discriminate | intros [post H]; rewrite app_String in H; discriminate].
    + destruct (ascii_dec a b) as [->|Hab].
      * rewrite IH. split; intros [post H]; exists post.
        -- rewrite app_String, H. reflexivity.
        -- rewrite app_String in H. congruence.
      * split; [discriminate|].
        intros [post H]. rewrite app_String in H. congruence.
Qed.

Lemma startswith_refl (s : string) : startswith s s = true.
Proof. induction s as [|a s IH]; simpl; [|destruct (ascii_dec a a)]; congruence. Qed.

Lemma contains_spec (p s : string) :
  contains p s = true <-> exists pre post, s = pre +:+ p +:+ post.
Proof.
  induction s as [|b s IH].
  - simpl. rewrite orb_false_r, startswith_spec. split.
    + intros [post H]. exists "", post. exact H.
    + intros [pre [post H]]. destruct pre; [exists post; exact H|].
      rewrite app_String in H. discriminate.
  - cbn [contains]. rewrite orb_true_iff, startswith_spec, IH. split.
    + intros [[post H]|[pre [post H]]].
      * exists "", post. exact H.
      * exists (String b pre), post. rewrite app_String, H. reflexivity.
    + intros [pre [post H]]. destruct pre as [|c pre].
      * left. exists post. exact H.
      * right. exists pre, post. rewrite app_String in H. congruence.
Qed.

Lemma contains_refl (s : string) : contains s s = true.
Proof. destruct s; simpl; [reflexivity|]. destruct (ascii_dec a a); [|congruence].
  rewrite startswith_refl. reflexivity. Qed.


Lemma app_empty_r (s : string) : s +:+ "" = s.
Proof. induction s as [|a s IH]; [reflexivity|]. rewrite app_String, IH. reflexivity. Qed.

Lemma rev_app_rev_app (s t r : string) :
  String.rev_app (String.rev_app s t) r = String.rev_app t (s +:+ r).
Proof.
  revert t. induction s as [|a s IH]; intros t; [reflexivity|].
  simpl. rewrite IH. reflexivity.
Qed.

Lemma rev_rev_app (w : string) : String.rev (String.rev_app w "") = w.
Proof. unfold String.rev. rewrite rev_app_rev_app. simpl. apply app_empty_r. Qed.

Lemma rev_app_empty (s t : string) : String.rev_app s t = "" -> s = "" /\ t = "".
Proof.
  revert t. induction s as [|a s IH]; intros t; simpl; [tauto|].
  intros H. apply IH in H as [_ H]. discriminate.
Qed.

Lemma no_space_rev_app (s t : string) :
  no_space (String.rev_app s t) <-> no_space s /\ no_space t.
Proof.
  revert t. induction s as [|a s IH]; intros t; simpl; [tauto|].
  rewrite IH. simpl. tauto.
Qed.

Lemma split_go_tokens (cur s : string) :
  no_space cur -> Forall is_word_token (split_go cur s).
Proof.
  revert cur. induction s as [|c s IH]; intros cur Hcur; simpl.
  - destruct cur as [|a cur]; [constructor|].
    constructor; [|constructor]. split.
    + intros H. apply rev_app_empty in H as [H _]. discriminate.
    + apply no_space_rev_app. split; [exact Hcur | exact I].
  - destruct (isspace c) eqn:Hc.
    + destruct cur as [|a cur]; [apply IH; exact I|].
      constructor; [|apply IH; exact I]. split.
      * intros H. apply rev_app_empty in H as [H _]. discriminate.
      * apply no_space_rev_app. split; [exact Hcur | exact I].
    + apply IH. simpl. split; assumption.
Qed.

Lemma split_tokens (s : string) : Forall is_word_token (split s).
Proof. apply split_go_tokens. exact I. Qed.

Lemma split_go_word (w cur s : string) :
  no_space w -> split_go cur (w +:+ s) = split_go (String.rev_app w cur) s.
Proof.
  revert cur. induction w as [|a w IH]; intros cur Hw; [reflexivity|].
  destruct Hw as [Ha Hw]. rewrite app_String. simpl. rewrite Ha. apply IH. exact Hw.
Qed.

(** Splitting what [join] made of words gives the words back. *)
Lemma split_join (ws : list string) :
  Forall is_word_token ws -> split (join " " ws) = ws.
Proof.
  induction 1 as [|w ws [Hne Hw] Hws IH]; [reflexivity|].
  assert (Hcur : String.rev_app w "" <> "").
  { intros H. apply rev_app_empty in H as [H _]. contradiction. }
  unfold split in *. destruct ws as [|w2 ws].
  - simpl. rewrite <- (app_empty_r w) at 1. rewrite split_go_word by exact Hw.
    simpl. destruct (String.rev_app w "") eqn:Hr; [contradiction|].
    rewrite <- Hr, rev_rev_app. reflexivity.
  - cbn [join]. rewrite split_go_word by exact Hw.
    rewrite app_String, app_empty. simpl.
    destruct (String.rev_app w "") eqn:Hr; [contradiction|].
    rewrite <- Hr, rev_rev_app. f_equal. exact IH.
Qed.

Lemma join_empty (ws : list string) :
  Forall is_word_token ws -> join " " ws = "" -> ws = [].
Proof.
  intros Hws H. destruct Hws as [|w ws [Hne _] _]; [reflexivity|].
  destruct w as [|a w]; [contradiction|].
  destruct ws; simpl in H; [discriminate|]. rewrite app_String in H. discriminate.
Qed.

(** ** Proficiency bands *)

Lemma Qleb_true (a b : Q) : Qleb a b = true <-> (a <= b)%Q.
Proof. apply Qle_bool_iff. Qed.

Lemma Qleb_false (a b : Q) : Qleb a b = false <-> (b < a)%Q.
Proof.
  rewrite <- not_true_iff_false, Qleb_true. split.
  - apply Qnot_le_lt.
  - apply Qlt_not_le.
Qed.

(** C1.  For every grade in [0, 30] (a rational, so every finite float)
    [grade_to_cefr] returns exactly one of the six bands, chosen by the
    inclusive upper bounds 4, 6, 8, 10 and 13; 4.0 is A1, 4.1 is A2, 13.0
    is C1, 13.1 is C2, and the null grade gives the null band. *)
Theorem grade_to_cefr_bands (g : Q) (Hlo : (0 <= g)%Q) (Hhi : (g <= 30)%Q) :
  (exists! b, In b bands /\ grade_to_cefr (Some g) = Some b)
  /\ ((g <= 4)%Q -> grade_to_cefr (Some g) = Some "A1")
  /\ ((4 < g)%Q -> (g <= 6)%Q -> grade_to_cefr (Some g) = Some "A2")
  /\ ((6 < g)%Q -> (g <= 8)%Q -> grade_to_cefr (Some g) = Some "B1")
  /\ ((8 < g)%Q -> (g <= 10)%Q -> grade_to_cefr (Some g) = Some "B2")
  /\ ((10 < g)%Q -> (g <= 13)%Q -> grade_to_cefr (Some g) = Some "C1")
  /\ ((13 < g)%Q -> grade_to_cefr (Some g) = Some "C2")
  /\ grade_to_cefr (Some 4%Q) = Some "A1"
  /\ grade_to_cefr (Some (41 # 10)%Q) = Some "A2"
  /\ grade_to_cefr (Some 13%Q) = Some "C1"
  /\ grade_to_cefr (Some (131 # 10)%Q) = Some "C2"
  /\ grade_to_cefr None = None.
Proof.
  assert (Hle : forall a b c : Q, (a < b)%Q -> (b <= c)%Q -> Qleb b a = false).
  { intros a b c Hab _. apply Qleb_false. exact Hab. }
  split.
  { unfold grade_to_cefr, bands.
    repeat match goal with
    | |- context [Qleb ?a ?b] => destruct (Qleb a b)
    end;
    match goal with
    | |- exists! b, _ /\ Some ?x = Some b =>
        exists x; split; [split; [simpl; tauto | reflexivity] | intros y [_ Hy]; congruence]
    end. }
  unfold grade_to_cefr.
  repeat split; try reflexivity.
  - intros H. apply Qleb_true in H. rewrite H. reflexivity.
  - intros H1 H2. apply Qleb_false in H1. apply Qleb_true in H2. rewrite H1, H2. reflexivity.
  - intros H1 H2.
    assert (H0 : Qleb g 4 = false) by (apply Qleb_false; eapply Qlt_trans; [|exact H1]; reflexivity).
    assert (H3 : Qleb g 6 = false) by (apply Qleb_false; exact H1).
    apply Qleb_true in H2. rewrite H0, H3, H2. reflexivity.
  - intros H1 H2.
    assert (H0 : Qleb g 4 = false) by (apply Qleb_false; eapply Qlt_trans; [|exact H1]; reflexivity).
    assert (H3 : Qleb g 6 = false) by (apply Qleb_false; eapply Qlt_trans; [|exact H1]; reflexivity).
    assert (H4 : Qleb g 8 = false) by (apply Qleb_false; exact H1).
    apply Qleb_true in H2. rewrite H0, H3, H4, H2. reflexivity.
  - intros H1 H2.
    assert (H0 : Qleb g 4 = false) by (apply Qleb_false; eapply Qlt_trans; [|exact H1]; reflexivity).
    assert (H3 : Qleb g 6 = false) by (apply Qleb_false; eapply Qlt_trans; [|exact H1]; reflexivity).
    assert (H4 : Qleb g 8 = false) by (apply Qleb_false; eapply Qlt_trans; [|exact H1]; reflexivity).
    assert (H5 : Qleb g 10 = false) by (apply Qleb_false; exact H1).
    apply Qleb_true in H2. rewrite H0, H3, H4, H5, H2. reflexivity.
  - intros H1.
    assert (H0 : Qleb g 4 = false) by (apply Qleb_false; eapply Qlt_trans; [|exact H1]; reflexivity).
    assert (H3 : Qleb g 6 = false) by (apply Qleb_false; eapply Qlt_trans; [|exact H1]; reflexivity).
    assert (H4 : Qleb g 8 = false) by (apply Qleb_false; eapply Qlt_trans; [|exact H1]; reflexivity).
    assert (H5 : Qleb g 10 = false) by (apply Qleb_false; eapply Qlt_trans; [|exact H1]; reflexivity).
    assert (H6 : Qleb g 13 = false) by (apply Qleb_false; exact H1).
    rewrite H0, H3, H4, H5, H6. reflexivity.
Qed.

Lemma grade_to_cefr_bands_witness :
  (0 <= 41 # 10)%Q /\ (41 # 10 <= 30)%Q /\
  grade_to_cefr (Some (41 # 10)%Q) = Some "A2".
Proof.
  assert (H0 : (0 <= 41 # 10)%Q) by (vm_compute; discriminate).
  assert (H1 : (41 # 10 <= 30)%Q) by (vm_compute; discriminate).
  split; [exact H0 | split; [exact H1 |]].
  destruct (grade_to_cefr_bands (41 # 10) H0 H1) as (_ & _ & H & _).
  apply H; [reflexivity | vm_compute; discriminate].
Defined.

(** ** Sorting *)

Section Sorting.
Context {A : Type} (before : A -> A -> bool).

Lemma insert_sorted_perm (x : A) (l : list A) :
  insert_sorted before x l ≡ₚ x :: l.
Proof.
  induction l as [|y l IH]; simpl; [reflexivity|].
  destruct (before x y); [reflexivity|].
  rewrite IH. apply Permutation_swap.
Qed.

Lemma py_sorted_perm (l : list A) : py_sorted before l ≡ₚ l.
Proof.
  induction l as [|x l IH]; simpl; [reflexivity|].
  rewrite insert_sorted_perm, IH. reflexivity.
Qed.

Lemma elem_of_py_sorted (x : A) (l : list A) : x ∈ py_sorted before l <-> x ∈ l.
Proof. rewrite (py_sorted_perm l). reflexivity. Qed.

Lemma length_py_sorted (l : list A) : length (py_sorted before l) = length l.
Proof. rewrite (py_sorted_perm l). reflexivity. Qed.



Hypothesis before_total : forall x y, before x y = false -> before y x = true.
Hypothesis before_trans :
  forall x y z, before x y = true -> before y z = true -> before x z = true.

Lemma insert_sorted_sorted (x : A) (l : list A) :
  StronglySorted (fun a b => before a b = true) l ->
  StronglySorted (fun a b => before a b = true) (insert_sorted before x l).
Proof.
  induction 1 as [|y l Hs IH Hy]; simpl.
  - repeat constructor.
  - destruct (before x y) eqn:Hxy.
    + constructor; [constructor; assumption|].
      constructor; [exact Hxy|].
      eapply Forall_impl; [exact Hy|]. intros z Hz. eapply before_trans; eassumption.
    + constructor; [exact IH|].
      rewrite (insert_sorted_perm x l). constructor; [|exact Hy].
      apply before_total. exact Hxy.
Qed.

Lemma py_sorted_sorted (l : list A) :
  StronglySorted (fun a b => before a b = true) (py_sorted before l).
Proof.
  induction l as [|x l IH]; simpl; [constructor|].
  apply insert_sorted_sorted. exact IH.
Qed.

End Sorting.

(** ** Text extraction *)








(** ** Metadata matcher *)

Lemma normalize_eq (s : string) : normalize s = join " " (split (clean s)).
Proof. destruct s; reflexivity. Qed.

Lemma split_normalize (s : string) : split (normalize s) = split (clean s).
Proof. rewrite normalize_eq. apply split_join, split_tokens. Qed.

Lemma normalize_empty (s : string) : normalize s = "" <-> split (normalize s) = [].
Proof.
  split; [intros ->; reflexivity|].
  rewrite split_normalize, normalize_eq. intros ->. reflexivity.
Qed.

Lemma word_set_empty (s : string) : word_set (normalize s) = ∅ <-> normalize s = "".
Proof.
  rewrite normalize_empty. unfold word_set. split.
  - destruct (split (normalize s)) as [|w ws]; [reflexivity|].
    intros H. assert (Hw : w ∈ (∅ : gset string)).
    { rewrite <- H. apply elem_of_list_to_set. left. }
    set_solver.
  - intros ->. reflexivity.
Qed.

Lemma nonempty_true (s : string) : nonempty s = true <-> s <> "".
Proof. destruct s; simpl; split; congruence. Qed.

Lemma truthy_Some (s : string) : truthy (Some s) = nonempty s.
Proof. destruct s; reflexivity. Qed.

Lemma verify_metadata_present (expected_title expected_author : string) (m : metadata) :
  truthy (title m) = true -> truthy (author m) = true ->
  verify_metadata expected_title expected_author m =
  {| title_match := title_rule (normalize expected_title) (normalize (default "" (title m)));
     author_match := author_rule (normalize expected_author) (normalize (default "" (author m)));
     actual_title := title m;
     actual_author := author m |}.
Proof. intros Ht Ha. unfold verify_metadata. rewrite Ht, Ha. reflexivity. Qed.

Lemma title_rule_spec (e a : string) :
  title_rule (normalize e) (normalize a) = true <->
  word_set (normalize e) <> ∅
  /\ Nat.min 2 (size (word_set (normalize e)))
     ≤ size (word_set (normalize e) ∩ word_set (normalize a)).
Proof.
  unfold title_rule. rewrite !andb_true_iff, !nonempty_true, bool_decide_eq_true.
  rewrite <- !word_set_empty.
  set (E := word_set (normalize e)). set (A := word_set (normalize a)).
  split; [tauto|]. intros [HE Hle]. repeat split; try assumption.
  intros HA. apply HE. apply leibniz_equiv, size_empty_iff.
  assert (H0 : size (E ∩ A) = 0).
  { apply size_empty_iff. rewrite HA. intros x. rewrite elem_of_intersection.
    rewrite !elem_of_empty. tauto. }
  destruct (size E); [reflexivity|]. rewrite H0 in Hle. lia.
Qed.

(** C4, as stated, fails: for the expected title "!!!" the expected word
    set is empty, so the intersection with the words of "Emma" has size
    0 = min (2, 0); both actual fields are present, and yet the title flag
    is false. *)
Lemma title_rule_not_exact :
  truthy (title emma) = true /\ truthy (author emma) = true
  /\ Nat.min 2 (size (word_set (normalize "!!!")))
     ≤ size (word_set (normalize "!!!") ∩ word_set (normalize "Emma"))
  /\ title_match (verify_metadata "!!!" "Jane Austen" emma) = false.
Proof. repeat split; vm_compute; constructor. Qed.

(** C4, amended.  With both actual fields present, the title flag is true
    exactly when the expected word set is not empty and its intersection
    with the actual word set has at least min (2, size of the expected
    word set) elements, the word sets being those of the normalized
    titles.  The expected title "The Adventures of Tom Sawyer" by "Mark
    Twain" against "Adventures of Tom Sawyer" by "Samuel Clemens" gives a
    true title flag and a false author flag. *)
Theorem title_match_rule (expected_title expected_author : string) (m : metadata)
    (Htitle : truthy (title m) = true) (Hauthor : truthy (author m) = true) :
  let expected_words := word_set (normalize expected_title) in
  let actual_words := word_set (normalize (default "" (title m))) in
  (title_match (verify_metadata expected_title expected_author m) = true <->
     expected_words <> ∅
     /\ Nat.min 2 (size expected_words) ≤ size (expected_words ∩ actual_words))
  /\ title_match (verify_metadata "The Adventures of Tom Sawyer" "Mark Twain" tom_sawyer) = true
  /\ author_match (verify_metadata "The Adventures of Tom Sawyer" "Mark Twain" tom_sawyer) = false.
Proof.
  cbv zeta. split; [|split; vm_compute; reflexivity].
  rewrite verify_metadata_present by assumption. cbn [title_match].
  apply title_rule_spec.
Qed.

Lemma title_match_rule_witness :
  truthy (title tom_sawyer) = true /\ truthy (author tom_sawyer) = true
  /\ title_match (verify_metadata "Tom Sawyer" "Mark Twain" tom_sawyer) = true.
Proof.
  split; [reflexivity | split; [reflexivity|]].
  destruct (title_match_rule "Tom Sawyer" "Mark Twain" tom_sawyer eq_refl eq_refl)
    as [H _].
  apply H. split; [vm_compute; discriminate | vm_compute; lia].
Defined.

(** C3, as stated, fails: the title "!!!" and the author "Li Po" are not
    empty, and matching them against themselves gives two false flags:
    the title has no word character, and no part of the author's name is
    longer than two characters. *)
Lemma matcher_exact_input_fails :
  nonempty "!!!" = true /\ nonempty "Li Po" = true
  /\ title_match (verify_metadata "!!!" "Li Po"
       {| title := Some "!!!"; author := Some "Li Po"; language := None |}) = false
  /\ author_match (verify_metadata "!!!" "Li Po"
       {| title := Some "!!!"; author := Some "Li Po"; language := None |}) = false.
Proof. repeat split; vm_compute; reflexivity. Qed.

(** C3, amended.  For a title [T] whose normalized form is not empty and
    an author [A] whose normalized form has a word longer than two
    characters, matching [T] and [A] against the metadata with title [T]
    and author [A] gives a true title flag and a true author flag. *)
Theorem matcher_exact_input (T A : string) (lang : option string)
    (HT : normalize T <> "")
    (HA : exists w, w ∈ split (normalize A) /\ 2 < len w) :
  title_match (verify_metadata T A {| title := Some T; author := Some A; language := lang |}) = true
  /\ author_match (verify_metadata T A {| title := Some T; author := Some A; language := lang |}) = true.
Proof.
  destruct HA as [w [Hw Hlen]].
  assert (HA : normalize A <> "").
  { intros H. rewrite H in Hw. inversion Hw. }
  assert (HT' : T <> "") by (intros ->; apply HT; reflexivity).
  assert (HA' : A <> "") by (intros ->; apply HA; reflexivity).
  rewrite verify_metadata_present
    by (cbn [title author]; rewrite truthy_Some; apply nonempty_true; assumption).
  simpl. split.
  - apply title_rule_spec. split.
    + rewrite word_set_empty. exact HT.
    + assert (Hidem : word_set (normalize T) ∩ word_set (normalize T)
                      = word_set (normalize T)).
      { apply leibniz_equiv. intros x. rewrite elem_of_intersection. tauto. }
      rewrite Hidem. lia.
  - unfold author_rule. apply nonempty_true in HA. rewrite HA. simpl.
    apply existsb_exists. exists w. split; [apply list_elem_of_In; exact Hw|].
    apply andb_true_iff. split; [apply Nat.ltb_lt; exact Hlen|].
    apply existsb_exists. exists w. split; [apply list_elem_of_In; exact Hw|].
    apply andb_true_iff. split; [apply Nat.ltb_lt; exact Hlen|].
    rewrite contains_refl. reflexivity.
Qed.

Lemma matcher_exact_input_witness :
  normalize "Emma" <> "" /\ (exists w, w ∈ split (normalize "Jane Austen") /\ 2 < len w)
  /\ title_match (verify_metadata "Emma" "Jane Austen" emma) = true
  /\ author_match (verify_metadata "Emma" "Jane Austen" emma) = true.
Proof.
  assert (HT : normalize "Emma" <> "") by (vm_compute; discriminate).
  assert (HA : exists w, w ∈ split (normalize "Jane Austen") /\ 2 < len w).
  { exists "jane". split; [vm_compute; left | vm_compute; lia]. }
  split; [exact HT | split; [exact HA|]].
  exact (matcher_exact_input "Emma" "Jane Austen" None HT HA).
Defined.

(** ** Language detector *)

#[local] Instance is_substring_dec (p s : string) : Decision (is_substring p s).
Proof.
  destruct (contains p s) eqn:H.
  - left. apply contains_spec. exact H.
  - right. intros Hs. apply contains_spec in Hs. congruence.
Defined.

Lemma max_first_ge (best : string * nat) (l : list (string * nat)) :
  snd best <= snd (max_first best l).
Proof.
  revert best. induction l as [|x l IH]; intros best; simpl; [lia|].
  destruct (Nat.ltb_spec (snd best) (snd x)) as [Hlt|Hge].
  - specialize (IH x). lia.
  - apply IH.
Qed.

(** [max_first] picks the first of the entries with the largest value. *)
Lemma max_first_split (best : string * nat) (l : list (string * nat)) :
  exists pre post,
    best :: l = pre ++ max_first best l :: post
    /\ Forall (fun x => snd x < snd (max_first best l)) pre
    /\ Forall (fun x => snd x <= snd (max_first best l)) post.
Proof.
  revert best. induction l as [|x l IH]; intros best.
  - exists [], []. repeat split; constructor.
  - simpl. destruct (Nat.ltb_spec (snd best) (snd x)) as [Hlt|Hge].
    + destruct (IH x) as (pre & post & Heq & Hpre & Hpost).
      exists (best :: pre), post. split; [simpl; f_equal; exact Heq|].
      split; [|exact Hpost]. constructor; [|exact Hpre].
      pose proof (max_first_ge x l). lia.
    + destruct (IH best) as (pre & post & Heq & Hpre & Hpost).
      destruct pre as [|b pre]; simpl in Heq.
      * injection Heq as Hb Hl. exists [], (x :: post).
        split; [simpl; rewrite <- Hb; do 2 f_equal; exact Hl|].
        split; [constructor|]. constructor; [|exact Hpost].
        rewrite <- Hb. exact Hge.
      * injection Heq as Hb Hl. subst b. exists (best :: x :: pre), post.
        split; [simpl; do 2 f_equal; exact Hl|].
        split; [|exact Hpost].
        apply Forall_cons in Hpre as [Hbest Hpre].
        constructor; [exact Hbest|]. constructor; [lia | exact Hpre].
Qed.

Lemma marker_score_spec (words : list string) (text_lower : string) :
  marker_score words text_lower
  = length (filter (fun w => is_substring (" " +:+ w +:+ " ") text_lower) words).
Proof.
  unfold marker_score. induction words as [|w words IH]; [reflexivity|].
  rewrite !filter_cons.
  destruct (decide (contains (" " +:+ w +:+ " ") text_lower = true)) as [Hc|Hc];
    destruct (decide (is_substring (" " +:+ w +:+ " ") text_lower)) as [He|He];
    simpl; try (rewrite IH; reflexivity).
  - exfalso. apply He. apply contains_spec. exact Hc.
  - exfalso. apply Hc. apply contains_spec. exact He.
Qed.

(** C9, as stated, fails: in [mixed_text] the English markers occur three
    times (" the " thrice) and the German ones twice (" der ", " die "), so
    English has the highest total count of occurrences; the detector
    returns German, because it counts each marker once however often it
    occurs. *)
Lemma detect_language_not_by_occurrences :
  occurrence_total "en" mixed_text = 3
  /\ occurrence_total "de" mixed_text = 2
  /\ occurrence_total "es" mixed_text = 0
  /\ occurrence_total "fr" mixed_text = 0
  /\ detect_language mixed_text = "de".
Proof. repeat split; vm_compute; reflexivity. Qed.

(** C9, amended.  For every text the score of each of the four languages
    is the number of its marker words [w] for which [" w "] is a substring
    of the lowercased text (a marker counts once however often it occurs);
    the scores are taken in the order de, es, fr, en, and the language
    returned is the first one with the highest score, so it is one of the
    four codes.  The empty string gives "de". *)
Theorem detect_language_first_highest (text : string) :
  map fst (language_scores text) = ["de"; "es"; "fr"; "en"]
  /\ (forall lang words, (lang, words) ∈ lang_markers ->
        (lang, length (filter (fun w => is_substring (" " +:+ w +:+ " ") (lower text)) words))
        ∈ language_scores text)
  /\ (exists pre score post,
        language_scores text = pre ++ (detect_language text, score) :: post
        /\ Forall (fun x => snd x < score) pre
        /\ Forall (fun x => snd x <= score) post)
  /\ detect_language text ∈ ["de"; "es"; "fr"; "en"]
  /\ detect_language "" = "de".
Proof.
  assert (Hsplit : exists pre score post,
        language_scores text = pre ++ (detect_language text, score) :: post
        /\ Forall (fun x => snd x < score) pre
        /\ Forall (fun x => snd x <= score) post).
  { unfold detect_language. destruct (language_scores text) as [|x l] eqn:Hs.
    - discriminate Hs.
    - destruct (max_first_split x l) as (pre & post & Heq & Hpre & Hpost).
      exists pre, (snd (max_first x l)), post.
      rewrite <- surjective_pairing. repeat split; assumption. }
  split; [reflexivity|]. split; [|split; [exact Hsplit|split; [|reflexivity]]].
  - intros lang words Hin. unfold language_scores.
    apply list_elem_of_fmap. exists (lang, words). split; [|exact Hin].
    f_equal. symmetry. apply marker_score_spec.
  - destruct Hsplit as (pre & score & post & Heq & _).
    assert (Hin : detect_language text ∈ map fst (language_scores text)).
    { rewrite Heq, map_app. apply elem_of_app. right. left. }
    exact Hin.
Qed.

(** ** Rounding and clamping *)


Lemma round_half_even_cases (x : Q) :
  (round_half_even x = Qfloor x /\ (x - inject_Z (Qfloor x) <= 1 # 2)%Q)
  \/ (round_half_even x = (Qfloor x + 1)%Z /\ (1 # 2 <= x - inject_Z (Qfloor x))%Q).
Proof.
  unfold round_half_even.
  destruct (x - inject_Z (Qfloor x) ?= 1 # 2)%Q eqn:Hc.
  - apply Qeq_alt in Hc. destruct (Z.even (Qfloor x)).
    + left. split; [reflexivity | rewrite Hc; apply Qle_refl].
    + right. split; [reflexivity | rewrite Hc; apply Qle_refl].
  - apply Qlt_alt in Hc. left. split; [reflexivity | apply Qlt_le_weak; exact Hc].
  - apply Qgt_alt in Hc. right. split; [reflexivity | apply Qlt_le_weak; exact Hc].
Qed.


Lemma round_half_even_mono (x y : Q) :
  (x <= y)%Q -> (round_half_even x <= round_half_even y)%Z.
Proof.
  intros Hxy. pose proof (Qfloor_resp_le x y Hxy) as Hf.
  destruct (Z.eq_dec (Qfloor x) (Qfloor y)) as [Heq|Hne].
  - unfold round_half_even. rewrite Heq.
    set (f := Qfloor y).
    destruct (x - inject_Z f ?= 1 # 2)%Q eqn:Hx;
      destruct (y - inject_Z f ?= 1 # 2)%Q eqn:Hy;
      try (destruct (Z.even f)); try lia;
      repeat match goal with
      | H : (_ ?= _)%Q = Eq |- _ => apply Qeq_alt in H
      | H : (_ ?= _)%Q = Lt |- _ => apply Qlt_alt in H
      | H : (_ ?= _)%Q = Gt |- _ => apply Qgt_alt in H
      end; exfalso; lra.
  - destruct (round_half_even_cases x) as [[-> _]|[-> _]];
      destruct (round_half_even_cases y) as [[-> _]|[-> _]]; lia.
Qed.

Lemma round1_mono (x y : Q) : (x <= y)%Q -> (round1 x <= round1 y)%Q.
Proof.
  intros Hxy. unfold round1.
  assert (H10 : (x * 10 <= y * 10)%Q) by lra.
  apply round_half_even_mono in H10. rewrite Zle_Qle in H10.
  apply Qmult_le_compat_r; [exact H10 | discriminate].
Qed.


Lemma max0_spec (x : Q) :
  ((0 < x)%Q /\ max0 x = x) \/ ((x <= 0)%Q /\ max0 x = 0%Q).
Proof. unfold max0. destruct (Qlt_le_dec 0 x); [left | right]; split; auto. Qed.




(** ** Readability scorer *)

(** [count_runs] counts the matches of ['[.!?]+']: a stretch without
    terminators has none, and a stretch without terminators followed by a
    maximal run of terminators adds one. *)
Lemma count_runs_skip (b : bool) (g s : string) :
  all_chars (fun c => negb (is_terminator c)) g ->
  count_runs b (g +:+ s) = match g with EmptyString => count_runs b s | _ => count_runs false s end.
Proof.
  revert b. induction g as [|c g IH]; intros b Hg; [reflexivity|].
  destruct Hg as [Hc Hg]. apply negb_true_iff in Hc.
  rewrite app_String. cbn [count_runs]. rewrite Hc, (IH false Hg).
  destruct g; reflexivity.
Qed.

Lemma count_runs_no_terminator (b : bool) (g : string) :
  all_chars (fun c => negb (is_terminator c)) g -> count_runs b g = 0.
Proof.
  intros Hg. rewrite <- (app_empty_r g), count_runs_skip by exact Hg.
  destruct g; reflexivity.
Qed.

Lemma count_runs_ahead (s : string) :
  no_terminator_ahead s -> count_runs true s = count_runs false s.
Proof. destruct s as [|c s]; [reflexivity|]. simpl. intros ->. reflexivity. Qed.

Lemma count_runs_inside (t s : string) :
  all_chars is_terminator t -> no_terminator_ahead s ->
  count_runs true (t +:+ s) = count_runs false s.
Proof.
  intros Ht Hs. induction t as [|c t IH]; [apply count_runs_ahead; exact Hs|].
  destruct Ht as [Hc Ht]. rewrite app_String. cbn [count_runs]. rewrite Hc.
  apply IH. exact Ht.
Qed.

Lemma count_runs_run (g t s : string) :
  all_chars (fun c => negb (is_terminator c)) g ->
  all_chars is_terminator t -> t <> "" -> no_terminator_ahead s ->
  count_runs false (g +:+ t +:+ s) = S (count_runs false s).
Proof.
  intros Hg Ht Hne Hs. rewrite count_runs_skip by exact Hg.
  assert (H : count_runs false (t +:+ s) = S (count_runs false s)).
  { destruct t as [|c t]; [contradiction|]. destruct Ht as [Hc Ht].
    rewrite app_String. cbn [count_runs]. rewrite Hc.
    rewrite count_runs_inside by assumption. reflexivity. }
  destruct g; exact H.
Qed.

Section ScorerProperties.

Variable pk : packages.

Lemma calculate_short (text : string) (lang : option string) :
  len text < 100 -> calculate_reading_difficulty pk text lang = too_short.
Proof.
  intros H. unfold calculate_reading_difficulty.
  apply Nat.ltb_lt in H. rewrite H, orb_true_r. reflexivity.
Qed.

Lemma calculate_fallback (text : string) (lang : option string) :
  100 <= len text ->
  textstat_grade pk text (resolve_language text lang) = None ->
  calculate_reading_difficulty pk text lang
  = manual_calculation pk text (resolve_language text lang).
Proof.
  intros Hlen Htier. unfold calculate_reading_difficulty.
  assert (Hne : nonempty text = true) by (destruct text; [simpl in Hlen; lia | reflexivity]).
  apply Nat.ltb_ge in Hlen. rewrite Hne, Hlen. cbn [negb orb]. cbv zeta.
  rewrite Htier. reflexivity.
Qed.

Lemma manual_calculation_few_words (text lang : string) :
  word_count text < 10 ->
  manual_calculation pk text lang
  = {| grade_level := None; cefr := None; error := Some "Not enough words";
       result_language := None |}.
Proof.
  intros H. unfold manual_calculation. cbv zeta.
  fold (word_count text). apply Nat.ltb_lt in H. rewrite H. reflexivity.
Qed.

Lemma manual_calculation_grade (text lang : string) :
  10 <= word_count text ->
  manual_calculation pk text lang
  = let grade := fk_grade (word_count text) (sentence_count text)
                   (syllable_count pk text lang) in
    {| grade_level := Some (round1 (max0 grade));
       cefr := grade_to_cefr (Some grade);
       error := None;
       result_language := Some lang |}.
Proof.
  intros H. unfold manual_calculation. cbv zeta.
  fold (word_count text). apply Nat.ltb_ge in H. rewrite H. reflexivity.
Qed.


(** C6.  A text shorter than 100 characters, and in the fallback tier a
    text whose cleanup leaves fewer than 10 words, gets a result with no
    grade level, no band, and a reason that is not empty.  The scorer is
    a total function: there is no input on which it raises. *)
Theorem scorer_fails_soft (text : string) (lang : option string)
    (H : len text < 100
         \/ (textstat_grade pk text (resolve_language text lang) = None
             /\ length (split (cleanup text)) < 10)) :
  grade_level (calculate_reading_difficulty pk text lang) = None
  /\ cefr (calculate_reading_difficulty pk text lang) = None
  /\ exists reason,
       error (calculate_reading_difficulty pk text lang) = Some reason
       /\ reason <> "".
Proof.
  destruct (Nat.lt_ge_cases (len text) 100) as [Hshort|Hlong].
  - rewrite calculate_short by exact Hshort.
    repeat split. eexists. split; [reflexivity | discriminate].
  - destruct H as [H|[Htier Hfew]]; [lia|].
    rewrite calculate_fallback by assumption.
    rewrite manual_calculation_few_words by exact Hfew.
    repeat split. eexists. split; [reflexivity | discriminate].
Qed.



End ScorerProperties.


Lemma scorer_fails_soft_witness :
  len "short" < 100
  /\ grade_level (calculate_reading_difficulty no_packages "short" None) = None
  /\ cefr (calculate_reading_difficulty no_packages "short" None) = None
  /\ grade_level (calculate_reading_difficulty no_packages "" None) = None
  /\ cefr (calculate_reading_difficulty no_packages "" None) = None.
Proof.
  assert (H1 : len "short" < 100) by (vm_compute; lia).
  assert (H2 : len "" < 100) by (vm_compute; lia).
  destruct (scorer_fails_soft no_packages "short" None (or_introl H1)) as (Ha & Hb & _).
  destruct (scorer_fails_soft no_packages "" None (or_introl H2)) as (Hc & Hd & _).
  repeat split; assumption.
Defined.




(** ** Theme detector *)

#[local] Instance Qle_decision (a b : Q) : Decision (a <= b)%Q.
Proof.
  destruct (Qleb a b) eqn:H.
  - left. apply Qleb_true. exact H.
  - right. apply Qlt_not_le, Qleb_false. exact H.
Defined.

#[local] Instance Qeq_decision (a b : Q) : Decision (a == b)%Q := Qeq_dec a b.

(** Every theme of every taxonomy has a label. *)
Lemma taxonomy_labelled (lang : string) :
  Forall (fun theme => dict_get THEME_LABELS (fst theme) = Some (theme_label (fst theme)))
    (taxonomy lang).
Proof.
  unfold taxonomy, THEME_KEYWORDS. cbn [dict_get].
  repeat match goal with
  | |- context [String.eqb ?a lang] => destruct (String.eqb a lang)
  end; cbn [default]; repeat constructor.
Qed.

Lemma theme_scores_ids (keywords : list (string * list string)) (text_lower : string)
    (total : nat) (x : string * Q) :
  x ∈ theme_scores keywords text_lower total ->
  exists theme, theme ∈ keywords /\ fst theme = fst x.
Proof.
  induction keywords as [|[theme_id theme_keywords] rest IH]; simpl.
  - intros H. inversion H.
  - destruct (0 <? theme_raw_count theme_keywords text_lower).
    + intros H. apply elem_of_cons in H as [->|H].
      * eexists. split; [left | reflexivity].
      * destruct (IH H) as [theme [Hin Heq]]. exists theme. split; [right; exact Hin | exact Heq].
    + intros H. destruct (IH H) as [theme [Hin Heq]]. exists theme. split; [right; exact Hin | exact Heq].
Qed.









(** * Properties of the rest of the pipeline *)

(** ** Markup stripping *)

(** Closes a goal [Forall (fun ev => ~ is_skip_start ev) events], or the
    same with [is_skip_end], for a list of events that is written out. *)
Ltac solve_events :=
  repeat constructor; simpl;
  let H := fresh in intros H; first [exact H | discriminate H].

Lemma feed_app (self : extractor) (e1 e2 : list html_event) :
  feed self (e1 ++ e2) = feed (feed self e1) e2.
Proof. apply fold_left_app. Qed.

Lemma feed_skipping (parts : list string) (events : list html_event) :
  Forall (fun ev => ~ is_skip_end ev) events ->
  feed {| extractor_parts := parts; skip := true |} events
  = {| extractor_parts := parts; skip := true |}.
Proof.
  induction 1 as [|ev events Hev _ IH]; [reflexivity|].
  cbn [feed fold_left]. fold (feed (handle {| extractor_parts := parts; skip := true |} ev) events).
  destruct ev as [tag|tag|data]; cbn [handle].
  - unfold handle_starttag. cbn [extractor_parts]. destruct (in_skip_tags tag); exact IH.
  - unfold handle_endtag. simpl in Hev. destruct (in_skip_tags tag); [contradiction (Hev eq_refl) | exact IH].
  - exact IH.
Qed.

Lemma feed_no_skip (parts : list string) (events : list html_event) :
  Forall (fun ev => ~ is_skip_start ev) events ->
  feed {| extractor_parts := parts; skip := false |} events
  = {| extractor_parts := parts ++ data_of events; skip := false |}.
Proof.
  intros H. revert parts. induction H as [|ev events Hev _ IH]; intros parts.
  - simpl. rewrite app_nil_r. reflexivity.
  - cbn [feed fold_left].
    fold (feed (handle {| extractor_parts := parts; skip := false |} ev) events).
    destruct ev as [tag|tag|data]; cbn [handle data_of omap].
    + unfold handle_starttag. simpl in Hev.
      destruct (in_skip_tags tag); [contradiction (Hev eq_refl) | apply IH].
    + unfold handle_endtag. cbn [extractor_parts]. destruct (in_skip_tags tag); apply IH.
    + unfold handle_data. cbn [skip extractor_parts]. rewrite IH, <- app_assoc. reflexivity.
Qed.

(** X1.  A document without a start tag of script, style, head, meta or
    link loses no text: the extracted text is all its data chunks, in
    order, joined by single spaces. *)
Theorem extractor_keeps_all_text (events : list html_event)
    (Hplain : Forall (fun ev => ~ is_skip_start ev) events) :
  get_text (feed new_extractor events) = join " " (data_of events).
Proof.
  unfold new_extractor. rewrite feed_no_skip by exact Hplain. reflexivity.
Qed.

Lemma extractor_keeps_all_text_witness :
  Forall (fun ev => ~ is_skip_start ev)
    [Starttag "p"; Data "Call me"; Starttag "b"; Data "Ishmael"; Endtag "b"; Endtag "p"]
  /\ get_text (feed new_extractor
       [Starttag "p"; Data "Call me"; Starttag "b"; Data "Ishmael"; Endtag "b"; Endtag "p"])
     = "Call me Ishmael".
Proof.
  assert (H : Forall (fun ev => ~ is_skip_start ev)
    [Starttag "p"; Data "Call me"; Starttag "b"; Data "Ishmael"; Endtag "b"; Endtag "p"]).
  { solve_events. }
  split; [exact H|]. rewrite (extractor_keeps_all_text _ H). reflexivity.
Defined.

(** X2.  From a start tag of a skipped element up to the next end tag of
    a skipped element nothing is extracted: the events in between leave no
    trace, whatever they are.  A meta or link tag, which has no end tag,
    thus drops all the text that follows it up to the next skipped end
    tag. *)
Theorem extractor_drops_skipped_stretch (self : extractor) (tag : string)
    (pre mid post : list html_event)
    (Htag : in_skip_tags tag = true)
    (Hmid : Forall (fun ev => ~ is_skip_end ev) mid) :
  feed self (pre ++ Starttag tag :: mid ++ post)
  = feed {| extractor_parts := extractor_parts (feed self pre); skip := true |} post.
Proof.
  rewrite feed_app. change (Starttag tag :: mid ++ post) with ([Starttag tag] ++ mid ++ post).
  rewrite !feed_app. cbn [feed fold_left handle]. unfold handle_starttag. rewrite Htag.
  fold (feed {| extractor_parts := extractor_parts (feed self pre); skip := true |} mid).
  rewrite feed_skipping by exact Hmid. reflexivity.
Qed.

Lemma extractor_drops_skipped_stretch_witness :
  in_skip_tags "META" = true
  /\ get_text (feed new_extractor
       ([Data "Title"] ++ Starttag "META" :: [Starttag "p"; Data "lost"; Endtag "p"] ++ []))
     = "Title".
Proof.
  split; [reflexivity|].
  rewrite (extractor_drops_skipped_stretch new_extractor "META" [Data "Title"]
             [Starttag "p"; Data "lost"; Endtag "p"] [] eq_refl).
  - reflexivity.
  - solve_events.
Defined.

(** X3.  Skipping is a flag, not a depth: the end tag of any skipped
    element switches extraction on again, also inside another skipped
    element that is still open.  So in a skipped element [outer] that
    holds a skipped element [inner], the text after [inner] is
    extracted. *)
Theorem extractor_skip_is_not_nested (self : extractor) (outer inner : string)
    (hidden leaked : string) (pre : list html_event)
    (Houter : in_skip_tags outer = true) (Hinner : in_skip_tags inner = true) :
  skip (feed self (pre ++ [Endtag inner])) = false
  /\ extractor_parts
       (feed self (pre ++ [Starttag outer; Starttag inner; Data hidden; Endtag inner;
                           Data leaked; Endtag outer]))
     = extractor_parts (feed self pre) ++ [leaked].
Proof.
  split.
  - rewrite feed_app. cbn [feed fold_left handle]. unfold handle_endtag.
    rewrite Hinner. reflexivity.
  - rewrite feed_app. cbn [feed fold_left handle].
    unfold handle_starttag, handle_endtag, handle_data.
    repeat first [rewrite Houter | rewrite Hinner | progress cbn [skip extractor_parts]].
    reflexivity.
Qed.

Lemma extractor_skip_is_not_nested_witness :
  in_skip_tags "head" = true /\ in_skip_tags "style" = true
  /\ get_text (feed new_extractor
       ([] ++ [Starttag "head"; Starttag "style"; Data "p {}"; Endtag "style";
               Data "Moby Dick"; Endtag "head"]))
     = "Moby Dick".
Proof.
  split; [reflexivity | split; [reflexivity|]].
  unfold get_text.
  destruct (extractor_skip_is_not_nested new_extractor "head" "style" "p {}" "Moby Dick" []
              eq_refl eq_refl) as [_ H].
  rewrite H. reflexivity.
Defined.

Lemma feed_parts_sublist (self : extractor) (events : list html_event) :
  exists kept, extractor_parts (feed self events) = extractor_parts self ++ kept
               /\ kept `sublist_of` data_of events.
Proof.
  revert self. induction events as [|ev events IH]; intros self.
  - exists []. split; [simpl; rewrite app_nil_r; reflexivity | constructor].
  - cbn [feed fold_left]. fold (feed (handle self ev) events).
    destruct (IH (handle self ev)) as (kept & Heq & Hsub). rewrite Heq.
    destruct ev as [tag|tag|data]; cbn [handle data_of omap].
    + exists kept. split; [|exact Hsub]. unfold handle_starttag.
      destruct (in_skip_tags tag); reflexivity.
    + exists kept. split; [|exact Hsub]. unfold handle_endtag.
      destruct (in_skip_tags tag); reflexivity.
    + unfold handle_data. destruct (skip self).
      * exists kept. split; [reflexivity | apply sublist_cons; exact Hsub].
      * exists (data :: kept). cbn [extractor_parts]. rewrite <- app_assoc.
        split; [reflexivity | apply sublist_skip; exact Hsub].
Qed.

(** X4.  The extractor invents and reorders nothing: the parts it has
    collected are a subsequence of the data chunks of the document. *)
Theorem extractor_parts_are_document_data (events : list html_event) :
  extractor_parts (feed new_extractor events) `sublist_of` data_of events.
Proof.
  destruct (feed_parts_sublist new_extractor events) as (kept & Heq & Hsub).
  rewrite Heq. exact Hsub.
Qed.

(** ** Metadata extraction *)

Lemma app_assoc_s (a b c : string) : (a +:+ b) +:+ c = a +:+ b +:+ c.
Proof. induction a as [|x a IH]; [reflexivity|]. rewrite !app_String, IH. reflexivity. Qed.

Lemma lower_app (a b : string) : lower (a +:+ b) = lower a +:+ lower b.
Proof. induction a as [|x a IH]; [reflexivity|]. rewrite app_String. simpl. rewrite IH. reflexivity. Qed.

Lemma len_lower (s : string) : len (lower s) = len s.
Proof. induction s as [|x s IH]; [reflexivity|]. unfold len in *. simpl. rewrite IH. reflexivity. Qed.



Lemma take_drop_while (P : ascii -> bool) (s : string) :
  take_while P s +:+ drop_while P s = s.
Proof.
  induction s as [|x s IH]; [reflexivity|]. simpl. destruct (P x); [|reflexivity].
  rewrite app_String, IH. reflexivity.
Qed.

Lemma is_not_false (d c : ascii) : is_not d c = false -> c = d.
Proof. unfold is_not. rewrite negb_false_iff. apply Ascii.eqb_eq. Qed.

Lemma take_while_lacks (d : ascii) (s : string) : lacks d (take_while (is_not d) s).
Proof.
  unfold lacks. induction s as [|x s IH]; [reflexivity|]. simpl.
  destruct (is_not d x) eqn:Hx; [|reflexivity]. simpl.
  destruct (ascii_dec d x) as [->|_]; [|exact IH].
  unfold is_not in Hx. rewrite Ascii.eqb_refl in Hx. discriminate.
Qed.

Lemma take_while_all (d : ascii) (s : string) :
  lacks d s -> take_while (is_not d) s = s.
Proof.
  unfold lacks. induction s as [|x s IH]; [reflexivity|]. simpl.
  destruct (ascii_dec d x) as [->|Hne]; [discriminate|]. intros H.
  assert (Hx : is_not d x = true).
  { unfold is_not. apply negb_true_iff, Ascii.eqb_neq. congruence. }
  rewrite Hx, (IH H). reflexivity.
Qed.

Lemma take_while_stop (d : ascii) (a b : string) :
  lacks d a -> take_while (is_not d) (a +:+ String d b) = a.
Proof.
  unfold lacks. induction a as [|x a IH].
  - intros _. rewrite app_empty. cbn [take_while drop_while]. unfold is_not.
    rewrite Ascii.eqb_refl. reflexivity.
  - cbn [char_in]. destruct (ascii_dec d x) as [->|Hne]; [discriminate|]. intros H.
    rewrite app_String. cbn [take_while drop_while].
    assert (Hx : is_not d x = true).
    { unfold is_not. apply negb_true_iff, Ascii.eqb_neq. congruence. }
    rewrite Hx, (IH H). reflexivity.
Qed.

Lemma drop_while_stop (d : ascii) (a b : string) :
  lacks d a -> drop_while (is_not d) (a +:+ String d b) = String d b.
Proof.
  unfold lacks. induction a as [|x a IH].
  - intros _. rewrite app_empty. cbn [take_while drop_while]. unfold is_not.
    rewrite Ascii.eqb_refl. reflexivity.
  - cbn [char_in]. destruct (ascii_dec d x) as [->|Hne]; [discriminate|]. intros H.
    rewrite app_String. cbn [take_while drop_while].
    assert (Hx : is_not d x = true).
    { unfold is_not. apply negb_true_iff, Ascii.eqb_neq. congruence. }
    rewrite Hx. exact (IH H).
Qed.

Lemma drop_while_head (P : ascii -> bool) (s : string) (c : ascii) (r : string) :
  drop_while P s = String c r -> P c = false.
Proof.
  induction s as [|x s IH]; simpl; [discriminate|].
  destruct (P x) eqn:Hx; [exact IH|]. intros H. injection H as -> _. exact Hx.
Qed.

Lemma drop_chars_app (a b : string) : drop_chars (len a) (a +:+ b) = b.
Proof. induction a as [|x a IH]; [destruct b; reflexivity|]. exact IH. Qed.

(** A prefix up to case: the front of [s] that was matched, and the rest. *)
Lemma startswith_lower_split (p s : string) :
  startswith (lower p) (lower s) = true ->
  exists o rest, s = o +:+ rest /\ lower o = lower p /\ drop_chars (len p) s = rest.
Proof.
  revert s. induction p as [|a p IH]; intros s H.
  - exists "", s. split; [reflexivity|]. split; [reflexivity|]. destruct s; reflexivity.
  - destruct s as [|b s]; simpl in H; [discriminate|].
    destruct (ascii_dec (lower_char a) (lower_char b)) as [Hab|_]; [|discriminate].
    destruct (IH s H) as (o & rest & -> & Ho & Hd).
    exists (String b o), rest. split; [reflexivity|]. split; [|exact Hd].
    simpl. rewrite Ho, Hab. reflexivity.
Qed.

Lemma startswith_lower_app (p o rest : string) :
  lower o = lower p -> startswith (lower p) (lower (o +:+ rest)) = true.
Proof.
  intros H. rewrite lower_app, H. apply startswith_spec. eexists. reflexivity.
Qed.

Lemma len_eq_lower (o p : string) : lower o = lower p -> len o = len p.
Proof. intros H. rewrite <- (len_lower o), <- (len_lower p), H. reflexivity. Qed.

(** What a match of the element pattern is made of. *)
Lemma match_element_at_sound (tag s group : string) :
  match_element_at tag s = Some group ->
  exists o attrs c post,
    s = o +:+ attrs +:+ ">" +:+ group +:+ c +:+ post
    /\ lower o = lower ("<" +:+ tag)
    /\ lower c = lower ("</" +:+ tag +:+ ">")
    /\ lacks ">" attrs /\ group <> "" /\ lacks "<" group.
Proof.
  unfold match_element_at. cbv zeta.
  destruct (startswith (lower ("<" +:+ tag)) (lower s)) eqn:Hopen; [|discriminate].
  apply startswith_lower_split in Hopen as (o & rest & -> & Ho & Hrest).
  rewrite Hrest.
  destruct (drop_while (is_not ">") rest) as [|ch inner] eqn:Hdrop; [discriminate|].
  pose proof (drop_while_head _ _ _ _ Hdrop) as Hch. apply is_not_false in Hch. subst ch.
  destruct (nonempty (take_while (is_not "<") inner)) eqn:Hne; [|discriminate].
  destruct (startswith (lower ("</" +:+ tag +:+ ">"))
              (lower (drop_while (is_not "<") inner))) eqn:Hclose; [|discriminate].
  simpl. intros H. injection H as <-.
  apply startswith_lower_split in Hclose as (c & post & Hc & Hlc & _).
  exists o, (take_while (is_not ">") rest), c, post.
  split.
  { f_equal. rewrite <- (take_drop_while (is_not ">") rest) at 1. rewrite Hdrop.
    f_equal. change (String ">" inner) with (">" +:+ inner). f_equal.
    rewrite <- (take_drop_while (is_not "<") inner) at 1. rewrite Hc. reflexivity. }
  split; [exact Ho|]. split; [exact Hlc|].
  split; [apply take_while_lacks|]. split; [apply nonempty_true; exact Hne|].
  apply take_while_lacks.
Qed.

Lemma search_element_sound (tag s group : string) :
  search_element tag s = Some group ->
  exists pre o attrs c post,
    s = pre +:+ o +:+ attrs +:+ ">" +:+ group +:+ c +:+ post
    /\ lower o = lower ("<" +:+ tag)
    /\ lower c = lower ("</" +:+ tag +:+ ">")
    /\ lacks ">" attrs /\ group <> "" /\ lacks "<" group.
Proof.
  induction s as [|x s IH]; cbn [search_element];
    destruct (match_element_at tag _) as [g|] eqn:Hm.
  - intros H. injection H as ->. apply match_element_at_sound in Hm
      as (o & attrs & c & post & Hs & H). exists "", o, attrs, c, post. split; [exact Hs | exact H].
  - discriminate.
  - intros H. injection H as ->. apply match_element_at_sound in Hm
      as (o & attrs & c & post & Hs & H). exists "", o, attrs, c, post. split; [exact Hs | exact H].
  - intros H. destruct (IH H) as (pre & o & attrs & c & post & -> & H').
    exists (String x pre), o, attrs, c, post. split; [reflexivity | exact H'].
Qed.

Lemma extract_fields (zf : epub) (m : metadata) :
  extract_epub_metadata (Some zf) = m -> m <> no_metadata ->
  exists path content,
    opf_path zf = Some path /\ epub_read zf path = Some content
    /\ m = manifest_fields content.
Proof.
  unfold extract_epub_metadata.
  destruct (opf_path zf) as [path|]; [|congruence].
  destruct (epub_read zf path) as [content|] eqn:Hr; [|congruence].
  intros H _. exists path, content. split; [reflexivity|]. split; [exact Hr|]. congruence.
Qed.

(** X6.  A title that is extracted is the content of a title element of
    the package file, stripped: the file holds, in any capitalization,
    [<dc:title], attributes without [>], a [>], the content (not empty,
    no [<] in it) and [</dc:title>], and the title is that content
    without the whitespace at its ends. *)
Theorem extracted_title_is_element_content (zf : epub) (t : string)
    (Htitle : title (extract_epub_metadata (Some zf)) = Some t) :
  exists path content pre o attrs group c post,
    opf_path zf = Some path /\ epub_read zf path = Some content
    /\ content = pre +:+ o +:+ attrs +:+ ">" +:+ group +:+ c +:+ post
    /\ lower o = "<dc:title" /\ lower c = "</dc:title>"
    /\ lacks ">" attrs /\ group <> "" /\ lacks "<" group
    /\ t = strip group.
Proof.
  destruct (extract_fields zf _ eq_refl) as (path & content & Hp & Hr & Hm).
  { intros H. rewrite H in Htitle. discriminate. }
  rewrite Hm in Htitle. cbn [title manifest_fields] in Htitle.
  destruct (search_element "dc:title" content) as [group|] eqn:Hs; [|discriminate].
  injection Htitle as <-.
  apply search_element_sound in Hs as (pre & o & attrs & c & post & Hc & Ho & Hcl & H).
  exists path, content, pre, o, attrs, group, c, post.
  split; [exact Hp|]. split; [exact Hr|]. split; [exact Hc|].
  split; [exact Ho|]. split; [exact Hcl|].
  destruct H as (H1 & H2 & H3). repeat split; assumption.
Qed.

Lemma extracted_title_is_element_content_witness :
  title (extract_epub_metadata (Some moby_epub)) = Some "Moby Dick"
  /\ exists group, "Moby Dick" = strip group /\ lacks "<" group.
Proof.
  assert (H : title (extract_epub_metadata (Some moby_epub)) = Some "Moby Dick")
    by (vm_compute; reflexivity).
  split; [exact H|].
  destruct (extracted_title_is_element_content moby_epub "Moby Dick" H)
    as (_ & _ & _ & _ & _ & group & _ & _ & _ & _ & _ & _ & _ & _ & _ & Hl & Hs).
  exists group. split; [exact Hs | exact Hl].
Defined.



Lemma last_char_nonempty (prev : option ascii) (c : ascii) (s : string) :
  last_char prev (String c s) = last_char None (String c s).
Proof. reflexivity. Qed.





Lemma list_find_first {A} (P : A -> Prop) `{!forall x, Decision (P x)}
    (pre post : list A) (x : A) :
  Forall (fun y => ~ P y) pre -> P x ->
  list_find P (pre ++ x :: post) = Some (length pre, x).
Proof.
  intros Hpre Hx. induction Hpre as [|y pre Hy _ IH]; simpl.
  - destruct (decide (P x)); [reflexivity | contradiction].
  - destruct (decide (P y)); [contradiction|]. rewrite IH. reflexivity.
Qed.

(** X8.  The package file is the first entry of the archive whose name
    ends in [.opf]: the fields are those of that entry (none when it
    cannot be read), and neither [META-INF/container.xml] nor a later
    [.opf] entry is looked at. *)
Theorem manifest_is_first_opf_entry (zf : epub) (pre post : list string) (name : string)
    (Hnames : epub_namelist zf = pre ++ name :: post)
    (Hpre : Forall (fun n => endswith ".opf" n = false) pre)
    (Hname : endswith ".opf" name = true) :
  opf_path zf = Some name
  /\ extract_epub_metadata (Some zf)
     = from_option manifest_fields no_metadata (epub_read zf name).
Proof.
  assert (Hpath : opf_path zf = Some name).
  { unfold opf_path. rewrite Hnames.
    rewrite (list_find_first (fun n => endswith ".opf" n = true) pre post name).
    - reflexivity.
    - eapply Forall_impl; [exact Hpre|]. intros n Hn. rewrite Hn. discriminate.
    - exact Hname. }
  split; [exact Hpath|]. unfold extract_epub_metadata. rewrite Hpath.
  destruct (epub_read zf name); reflexivity.
Qed.

Lemma manifest_is_first_opf_entry_witness :
  epub_namelist moby_epub = ["mimetype"] ++ "OEBPS/content.opf" :: ["OEBPS/ch1.xhtml"]
  /\ opf_path moby_epub = Some "OEBPS/content.opf"
  /\ extract_epub_metadata (Some moby_epub) = manifest_fields moby_opf.
Proof.
  destruct (manifest_is_first_opf_entry moby_epub ["mimetype"] ["OEBPS/ch1.xhtml"]
              "OEBPS/content.opf" eq_refl) as [H1 H2].
  - repeat constructor.
  - reflexivity.
  - split; [reflexivity|]. split; [exact H1 | exact H2].
Defined.

Lemma match_full_path_at_sound (s value : string) :
  match_full_path_at s = Some value ->
  exists post,
    s = ("full-path=" +:+ String dquote "") +:+ value +:+ String dquote post
    /\ lacks dquote value /\ endswith ".opf" value = true /\ 4 < len value.
Proof.
  unfold match_full_path_at. cbv zeta.
  set (prefix := "full-path=" +:+ String dquote "").
  destruct (startswith prefix s) eqn:Hp; [|discriminate].
  apply startswith_spec in Hp as [rest ->]. rewrite drop_chars_app.
  destruct (drop_while (is_not dquote) rest) as [|ch post] eqn:Hdrop; [discriminate|].
  pose proof (drop_while_head _ _ _ _ Hdrop) as Hch. apply is_not_false in Hch. subst ch.
  destruct (endswith ".opf" (take_while (is_not dquote) rest)) eqn:He; [|discriminate].
  destruct (Nat.ltb_spec 4 (len (take_while (is_not dquote) rest))) as [Hl|]; [|discriminate].
  simpl. intros H. injection H as <-. exists post.
  split; [|split; [apply take_while_lacks | split; [exact He | exact Hl]]].
  f_equal. rewrite <- Hdrop. symmetry. apply take_drop_while.
Qed.

Lemma search_full_path_sound (s value : string) :
  search_full_path s = Some value ->
  exists pre post,
    s = pre +:+ ("full-path=" +:+ String dquote "") +:+ value +:+ String dquote post
    /\ lacks dquote value /\ endswith ".opf" value = true /\ 4 < len value.
Proof.
  induction s as [|x s IH]; cbn [search_full_path];
    destruct (match_full_path_at _) as [v|] eqn:Hm.
  - intros H. injection H as ->. apply match_full_path_at_sound in Hm as (post & Hs & H).
    exists "", post. split; [exact Hs | exact H].
  - discriminate.
  - intros H. injection H as ->. apply match_full_path_at_sound in Hm as (post & Hs & H).
    exists "", post. split; [exact Hs | exact H].
  - intros H. destruct (IH H) as (pre & post & -> & H').
    exists (String x pre), post. split; [reflexivity | exact H'].
Qed.

(** X9.  When no entry ends in [.opf], the package file is the one that
    [META-INF/container.xml] names: a value of a [full-path] attribute in
    double quotes that ends in [.opf] behind at least one character.  The
    fields are those of that entry, none when it cannot be read. *)
Theorem manifest_from_container (zf : epub) (container : string)
    (Hnames : Forall (fun n => endswith ".opf" n = false) (epub_namelist zf))
    (Hread : epub_read zf "META-INF/container.xml" = Some container) :
  opf_path zf = search_full_path container
  /\ (forall path, opf_path zf = Some path ->
        (exists pre post,
           container = pre +:+ ("full-path=" +:+ String dquote "") +:+ path
                       +:+ String dquote post)
        /\ lacks dquote path /\ endswith ".opf" path = true /\ 4 < len path
        /\ extract_epub_metadata (Some zf)
           = from_option manifest_fields no_metadata (epub_read zf path)).
Proof.
  assert (Hpath : opf_path zf = search_full_path container).
  { unfold opf_path.
    assert (Hnone : list_find (fun n => endswith ".opf" n = true) (epub_namelist zf) = None).
    { apply list_find_None. eapply Forall_impl; [exact Hnames|].
      intros n Hn. rewrite Hn. discriminate. }
    rewrite Hnone, Hread. reflexivity. }
  split; [exact Hpath|]. intros path Hp.
  assert (Hs : search_full_path container = Some path) by congruence.
  apply search_full_path_sound in Hs as (pre & post & Hc & Hl & He & Hn).
  split; [exists pre, post; exact Hc|]. split; [exact Hl|]. split; [exact He|].
  split; [exact Hn|]. unfold extract_epub_metadata. rewrite Hp.
  destruct (epub_read zf path); reflexivity.
Qed.

Lemma manifest_from_container_witness :
  opf_path {| epub_namelist := ["META-INF/container.xml"];
              epub_read := fun n => if String.eqb n "META-INF/container.xml"
                                    then Some container_xml else None |}
  = Some "OEBPS/content.opf".
Proof.
  destruct (manifest_from_container
              {| epub_namelist := ["META-INF/container.xml"];
                 epub_read := fun n => if String.eqb n "META-INF/container.xml"
                                       then Some container_xml else None |}
              container_xml) as [H _].
  - repeat constructor.
  - reflexivity.
  - rewrite H. vm_compute. reflexivity.
Defined.

(** X5.  An archive without a package file gives no metadata, and then
    the matcher reports a mismatch for every expected title and author:
    no entry ends in [.opf], and [META-INF/container.xml] cannot be read
    or names no package file. *)
Theorem no_manifest_no_match (zf : epub) (expected_title expected_author : string)
    (Hnames : Forall (fun n => endswith ".opf" n = false) (epub_namelist zf))
    (Hcontainer : epub_read zf "META-INF/container.xml" ≫= search_full_path = None) :
  extract_epub_metadata (Some zf) = no_metadata
  /\ title_match (verify_metadata expected_title expected_author
                    (extract_epub_metadata (Some zf))) = false
  /\ author_match (verify_metadata expected_title expected_author
                     (extract_epub_metadata (Some zf))) = false.
Proof.
  assert (H : extract_epub_metadata (Some zf) = no_metadata).
  { unfold extract_epub_metadata, opf_path.
    assert (Hnone : list_find (fun n => endswith ".opf" n = true) (epub_namelist zf) = None).
    { apply list_find_None. eapply Forall_impl; [exact Hnames|].
      intros n Hn. rewrite Hn. discriminate. }
    rewrite Hnone. destruct (epub_read zf "META-INF/container.xml") as [c|]; [|reflexivity].
    simpl in Hcontainer. rewrite Hcontainer. reflexivity. }
  rewrite H. repeat split.
Qed.

Lemma no_manifest_no_match_witness :
  extract_epub_metadata
    (Some {| epub_namelist := ["mimetype"; "ch1.xhtml"]; epub_read := fun _ => None |})
  = no_metadata
  /\ title_match (verify_metadata "Moby Dick" "Herman Melville"
       (extract_epub_metadata
          (Some {| epub_namelist := ["mimetype"; "ch1.xhtml"]; epub_read := fun _ => None |})))
     = false.
Proof.
  destruct (no_manifest_no_match
              {| epub_namelist := ["mimetype"; "ch1.xhtml"]; epub_read := fun _ => None |}
              "Moby Dick" "Herman Melville") as (H1 & H2 & _).
  - repeat constructor.
  - reflexivity.
  - split; [exact H1 | exact H2].
Defined.

Lemma lower_char_lt (x : ascii) : lower_char x = "<"%char -> x = "<"%char.
Proof. destruct x as [[] [] [] [] [] [] [] []]; vm_compute; congruence. Qed.

Lemma char_in_drop_chars (d : ascii) (n : nat) (s : string) :
  char_in d (drop_chars n s) = true -> char_in d s = true.
Proof.
  revert s. induction n as [|n IH]; intros s; [destruct s; exact id|].
  destruct s as [|x s]; [exact id|]. simpl. intros H.
  destruct (ascii_dec d x); [reflexivity | apply IH; exact H].
Qed.

(** A prefix [p] found at the front of [a] followed by [d]: it is found
    within [a], or [d] is the character of [p] at the length of [a]. *)
Lemma startswith_straddle (p a : string) (d : ascii) (b : string) :
  startswith p (a +:+ String d b) = true ->
  startswith p a = true \/ char_in d (drop_chars (len a) p) = true.
Proof.
  revert p. induction a as [|x a IH]; intros p.
  - rewrite app_empty. destruct p as [|p0 p]; [left; reflexivity|].
    simpl. destruct (ascii_dec p0 d) as [->|]; [|discriminate].
    intros _. right. destruct (ascii_dec d d); [reflexivity | contradiction].
  - rewrite app_String. destruct p as [|p0 p]; [left; reflexivity|].
    cbn [startswith]. destruct (ascii_dec p0 x); [|discriminate]. apply IH.
Qed.

Lemma match_element_at_complete (tag o attrs group c post : string) :
  lower o = lower ("<" +:+ tag) -> lower c = lower ("</" +:+ tag +:+ ">") ->
  lacks ">" attrs -> group <> "" -> lacks "<" group ->
  match_element_at tag (o +:+ attrs +:+ ">" +:+ group +:+ c +:+ post) = Some group.
Proof.
  intros Ho Hc Hattrs Hne Hgroup. unfold match_element_at. cbv zeta.
  rewrite (startswith_lower_app _ o _ Ho).
  rewrite <- (len_eq_lower o _ Ho), drop_chars_app.
  change (">" +:+ group +:+ c +:+ post) with (String ">" (group +:+ c +:+ post)).
  rewrite (drop_while_stop ">" attrs _ Hattrs).
  assert (Hc' : exists c', c = String "<" c').
  { destruct c as [|x c']; [discriminate Hc|]. rewrite app_String in Hc. simpl in Hc.
    injection Hc as Hx _. apply lower_char_lt in Hx. subst x. eexists. reflexivity. }
  destruct Hc' as [c' ->]. rewrite app_String.
  rewrite (take_while_stop "<" group _ Hgroup), (drop_while_stop "<" group _ Hgroup).
  apply nonempty_true in Hne. rewrite Hne. cbn [andb].
  rewrite <- app_String, (startswith_lower_app _ (String "<" c') post Hc). reflexivity.
Qed.

(** The search finds an element in front of which the opening tag does
    not occur. *)
Lemma search_element_first (tag pre o rest : string) (r : option string) :
  lacks "<" (lower tag) ->
  contains (lower ("<" +:+ tag)) (lower pre) = false ->
  lower o = lower ("<" +:+ tag) ->
  match_element_at tag (o +:+ rest) = r -> r <> None ->
  search_element tag (pre +:+ o +:+ rest) = r.
Proof.
  intros Htag Hpre Ho Hm Hr. induction pre as [|x pre IH].
  - rewrite app_empty. destruct (o +:+ rest) eqn:Hs; cbn [search_element];
      rewrite Hm; destruct r; congruence.
  - cbn [lower contains] in Hpre. apply orb_false_iff in Hpre as [Hhere Hpre].
    rewrite app_String. cbn [search_element].
    assert (Hnone : match_element_at tag (String x (pre +:+ o +:+ rest)) = None).
    { unfold match_element_at. cbv zeta.
      destruct (startswith (lower ("<" +:+ tag)) (lower (String x (pre +:+ o +:+ rest))))
        eqn:Hs; [|reflexivity].
      exfalso. rewrite <- app_String, !lower_app in Hs.
      rewrite lower_app in Hhere.
      change (lower "<" +:+ lower tag) with (String "<" (lower tag)) in Hs, Hhere.
      assert (Ho' : lower o = String "<" (lower tag)) by (rewrite Ho, lower_app; reflexivity).
      rewrite Ho', app_String in Hs.
      apply startswith_straddle in Hs as [Hs|Hs].
      - cbn [lower] in Hs. congruence.
      - cbn [lower len String.length drop_chars] in Hs.
        apply char_in_drop_chars in Hs. unfold lacks in Htag. congruence. }
    rewrite Hnone. apply IH. exact Hpre.
Qed.

(** X10.  A package file that holds [<dc:title ...>content</dc:title>]
    (the tag names in any capitalization, no [>] in the attributes,
    the content not empty and without [<]), with no [<dc:title] in
    front of it, gives the content as the title, without the whitespace
    at its ends. *)
Theorem title_element_is_extracted (zf : epub)
    (path content pre o attrs group c post : string)
    (Hpath : opf_path zf = Some path)
    (Hread : epub_read zf path = Some content)
    (Hcontent : content = pre +:+ o +:+ attrs +:+ ">" +:+ group +:+ c +:+ post)
    (Hpre : contains "<dc:title" (lower pre) = false)
    (Ho : lower o = "<dc:title") (Hc : lower c = "</dc:title>")
    (Hattrs : lacks ">" attrs) (Hne : group <> "") (Hgroup : lacks "<" group) :
  title (extract_epub_metadata (Some zf)) = Some (strip group).
Proof.
  unfold extract_epub_metadata. rewrite Hpath, Hread. cbn [manifest_fields title].
  rewrite Hcontent.
  rewrite (search_element_first "dc:title" pre o _ (Some group)).
  - reflexivity.
  - reflexivity.
  - exact Hpre.
  - exact Ho.
  - apply match_element_at_complete; assumption.
  - discriminate.
Qed.

Lemma title_element_is_extracted_witness :
  moby_opf = "<package><metadata>" +:+ "<dc:title" +:+ " id='t'" +:+ ">" +:+ " Moby Dick "
             +:+ "</dc:title>"
             +:+ "<dc:creator>Herman Melville</dc:creator><dc:language>en-US</dc:language></metadata></package>"
  /\ title (extract_epub_metadata (Some moby_epub)) = Some "Moby Dick".
Proof.
  split; [reflexivity|].
  rewrite (title_element_is_extracted moby_epub "OEBPS/content.opf" moby_opf
             "<package><metadata>" "<dc:title" " id='t'" " Moby Dick " "</dc:title>"
             "<dc:creator>Herman Melville</dc:creator><dc:language>en-US</dc:language></metadata></package>");
    try reflexivity; discriminate.
Defined.

(** ** Download *)

Lemma try_download_url_spec (env : environment) (url filepath : string) (min_size : Z)
    (w : world) :
  let r := try_download_url env url filepath min_size w in
  requests (snd r) = requests w ++ [Fetch url]
  /\ (forall p, p <> filepath -> files (snd r) !! p = files w !! p)
  /\ (fst r = true ->
      exists data, urlopen env url = Some data
        /\ startswith "PK" data = true /\ (min_size <= Z.of_nat (len data))%Z
        /\ files (snd r) !! filepath = Some data)
  /\ (fst r = false ->
      (urlopen env url = None /\ files (snd r) !! filepath = None)
      \/ (exists data, urlopen env url = Some data
            /\ (startswith "PK" data = false \/ (Z.of_nat (len data) < min_size)%Z)
            /\ files (snd r) = files w)).
Proof.
  unfold try_download_url. cbv zeta.
  destruct (urlopen env url) as [data|] eqn:Hopen.
  - destruct (startswith "PK" data) eqn:Hpk; cbn [negb].
    + destruct (Z.ltb_spec (Z.of_nat (len data)) min_size) as [Hsmall|Hbig]; cbn [fst snd].
      * repeat split; try discriminate.
        intros _. right. exists data. repeat split. right. exact Hsmall.
      * cbn [files requests log]. split; [reflexivity|]. split.
        { intros p Hp. apply lookup_insert_ne. congruence. }
        split; [|discriminate]. intros _. exists data.
        repeat split; try assumption. apply lookup_insert_eq.
    + cbn [fst snd]. repeat split; try discriminate.
      intros _. right. exists data. repeat split. left. exact Hpk.
  - cbn [fst snd files requests log]. split; [reflexivity|]. split.
    { intros p Hp. apply lookup_delete_ne. congruence. }
    split; [discriminate|]. intros _. left. split; [reflexivity | apply lookup_delete_eq].
Qed.


Lemma archive_urls_spec (env : environment) (docs : list (option string)) (w : world) :
  files (snd (archive_urls env docs w)) = files w
  /\ (exists new, requests (snd (archive_urls env docs w)) = requests w ++ new
        /\ Forall is_metadata new /\ length new <= length docs)
  /\ Forall (fun url => exists identifier names name,
               Some identifier ∈ docs /\ ia_files env identifier = Some names
               /\ name ∈ names /\ endswith ".epub" name = true
               /\ url = archive_url identifier name)
       (fst (archive_urls env docs w)).
Proof.
  revert w. induction docs as [|[identifier|] docs IH]; intros w.
  - simpl. split; [reflexivity|]. split; [|constructor].
    exists []. rewrite app_nil_r. split; [reflexivity|]. split; [constructor | simpl; lia].
  - cbn [archive_urls]. cbv zeta.
    specialize (IH (log (Metadata identifier) w)).
    destruct (archive_urls env docs (log (Metadata identifier) w)) as [more w'].
    cbn [fst snd] in *. destruct IH as (Hfiles & (new & Hreq & Hnew & Hlen) & Hurls).
    split; [exact Hfiles|]. split.
    + exists (Metadata identifier :: new). rewrite Hreq. cbn [requests log].
      rewrite <- app_assoc. split; [reflexivity|].
      split; [constructor; [exact I | exact Hnew] | simpl; lia].
    + apply Forall_app. split.
      * destruct (ia_files env identifier) as [names|] eqn:Hnames; [|constructor].
        apply Forall_forall. intros url Hurl.
        apply list_elem_of_fmap in Hurl as (name & -> & Hname).
        apply elem_of_py_sorted, list_elem_of_filter in Hname as [Hepub Hname].
        exists identifier, names, name. repeat split; try assumption. left.
      * eapply Forall_impl; [exact Hurls|].
        intros url (i & names & name & Hi & H). exists i, names, name.
        split; [right; exact Hi | exact H].
  - simpl. split; [reflexivity|]. split; [|constructor].
    exists []. rewrite app_nil_r. split; [reflexivity|]. split; [constructor | simpl; lia].
Qed.

(** X12.  [search_internet_archive] writes no file, sends the search and
    then at most three requests for item metadata, and returns only
    addresses of the form [https://archive.org/download/ID/NAME], where
    [ID] is one of the first three documents found and [NAME] is a file
    of that item whose name ends in [.epub]. *)
Theorem search_internet_archive_urls (env : environment) (title author : string)
    (w : world) :
  files (snd (search_internet_archive env title author w)) = files w
  /\ (exists new,
        requests (snd (search_internet_archive env title author w))
        = requests w ++ Search title author :: new
        /\ Forall is_metadata new /\ length new <= 3)
  /\ Forall (fun url => exists docs identifier names name,
               ia_docs env title author = Some docs
               /\ Some identifier ∈ take 3 docs
               /\ ia_files env identifier = Some names
               /\ name ∈ names /\ endswith ".epub" name = true
               /\ url = "https://archive.org/download/" +:+ identifier +:+ "/" +:+ name)
       (fst (search_internet_archive env title author w)).
Proof.
  unfold search_internet_archive. cbv zeta.
  destruct (ia_docs env title author) as [docs|] eqn:Hdocs.
  - destruct (archive_urls_spec env (take 3 docs) (log (Search title author) w))
      as (Hfiles & (new & Hreq & Hnew & Hlen) & Hurls).
    split; [exact Hfiles|]. split.
    + exists new. rewrite Hreq. cbn [requests log]. rewrite <- app_assoc.
      split; [reflexivity|]. split; [exact Hnew|].
      rewrite length_take in Hlen. lia.
    + eapply Forall_impl; [exact Hurls|].
      intros url (i & names & name & H). exists docs, i, names, name.
      split; [reflexivity | exact H].
  - cbn [fst snd]. split; [reflexivity|]. split; [|constructor].
    exists []. cbn [requests log]. split; [reflexivity|]. split; [constructor | simpl; lia].
Qed.

Lemma lcp_before_total (x y : string) : lcp_before x y = false -> lcp_before y x = true.
Proof.
  unfold lcp_before. intros H. apply orb_false_iff in H as [H1 H2].
  apply Nat.ltb_ge in H1. apply orb_true_iff.
  destruct (Nat.eq_dec (lcp_rank x) (lcp_rank y)) as [Heq|Hne].
  - right. rewrite Heq, Nat.eqb_refl in *. cbn [andb] in *.
    destruct (String.leb_total x y) as [H|H]; congruence.
  - left. apply Nat.ltb_lt. lia.
Qed.

Lemma String_leb_trans (x y z : string) :
  String.leb x y = true -> String.leb y z = true -> String.leb x z = true.
Proof.
  intros H1 H2. apply Is_true_true.
  apply (transitivity (R := String.le) (y := y)); apply Is_true_true; assumption.
Qed.

Lemma lcp_before_trans (x y z : string) :
  lcp_before x y = true -> lcp_before y z = true -> lcp_before x z = true.
Proof.
  unfold lcp_before. rewrite !orb_true_iff, !andb_true_iff, !Nat.ltb_lt, !Nat.eqb_eq.
  intros [H1|[H1 H1']] [H2|[H2 H2']]; try (left; lia).
  right. split; [lia|]. eapply String_leb_trans; eassumption.
Qed.

(** X13.  For one item of the Internet Archive the addresses come in the
    order of the sort key: they are the item's [.epub] files, each once
    per occurrence, every file whose name contains [_lcp.epub] in front
    of every file whose name does not, and within each of the two groups
    in ascending order of the names. *)
Theorem archive_item_urls_order (env : environment) (identifier : string)
    (names : list string) (w : world)
    (Hnames : ia_files env identifier = Some names) :
  exists ordered,
    fst (archive_urls env [Some identifier] w)
    = map (fun name => "https://archive.org/download/" +:+ identifier +:+ "/" +:+ name) ordered
    /\ ordered ≡ₚ filter (fun name => endswith ".epub" name = true) names
    /\ (forall i j x y, ordered !! i = Some x -> ordered !! j = Some y -> i < j ->
          (contains "_lcp.epub" y = true -> contains "_lcp.epub" x = true)
          /\ (contains "_lcp.epub" x = contains "_lcp.epub" y -> String.leb x y = true)).
Proof.
  exists (py_sorted lcp_before (filter (fun name => endswith ".epub" name = true) names)).
  split; [|split].
  - cbn [archive_urls]. cbv zeta. rewrite Hnames. cbn [fst]. apply app_nil_r.
  - apply py_sorted_perm.
  - pose proof (py_sorted_sorted lcp_before lcp_before_total lcp_before_trans
                  (filter (fun name => endswith ".epub" name = true) names)) as Hs.
    intros i j x y Hi Hj Hij.
    assert (Hxy : lcp_before x y = true).
    { revert Hs i j x y Hi Hj Hij.
      generalize (py_sorted lcp_before (filter (fun name => endswith ".epub" name = true) names)).
      intros l Hs. induction Hs as [|a l Hs IH Ha]; intros i j x y Hi Hj Hij.
      - rewrite lookup_nil in Hi. discriminate.
      - destruct j as [|j]; [lia|]. cbn in Hj. destruct i as [|i].
        + cbn in Hi. injection Hi as ->. rewrite Forall_forall in Ha.
          apply Ha. eapply list_elem_of_lookup_2. exact Hj.
        + cbn in Hi. apply (IH i j); [assumption.. | lia]. }
    unfold lcp_before, lcp_rank in Hxy.
    destruct (contains "_lcp.epub" x), (contains "_lcp.epub" y); cbn in Hxy;
      split; intros; try congruence.
Qed.

Lemma archive_item_urls_order_witness :
  exists ordered,
    fst (archive_urls
           {| urlopen := fun _ => None; ia_docs := fun _ _ => None;
              ia_files := fun _ => Some ["b.epub"; "cover.jpg"; "a.epub"; "b_lcp.epub"];
              path_join := fun a b => a +:+ b |}
           [Some "emma00aust"] empty_world)
    = map (fun name => "https://archive.org/download/" +:+ "emma00aust" +:+ "/" +:+ name) ordered
    /\ ordered ≡ₚ ["b.epub"; "a.epub"; "b_lcp.epub"].
Proof.
  destruct (archive_item_urls_order
              {| urlopen := fun _ => None; ia_docs := fun _ _ => None;
                 ia_files := fun _ => Some ["b.epub"; "cover.jpg"; "a.epub"; "b_lcp.epub"];
                 path_join := fun a b => a +:+ b |}
              "emma00aust" ["b.epub"; "cover.jpg"; "a.epub"; "b_lcp.epub"] empty_world eq_refl)
    as (ordered & H & Hperm & _).
  exists ordered. split; [exact H | exact Hperm].
Defined.

Lemma try_urls_spec (env : environment) (urls : list string) (filepath : string)
    (w : world) :
  (forall p, p <> filepath -> files (snd (try_urls env urls filepath w)) !! p = files w !! p)
  /\ exists new,
       requests (snd (try_urls env urls filepath w)) = requests w ++ new
       /\ Forall is_fetch new
       /\ (fst (try_urls env urls filepath w) = true ->
           exists url data, Fetch url ∈ new
             /\ urlopen env url = Some data /\ valid_epub_data data
             /\ files (snd (try_urls env urls filepath w)) !! filepath = Some data)
       /\ (fst (try_urls env urls filepath w) = false -> files w !! filepath = None ->
           files (snd (try_urls env urls filepath w)) !! filepath = None).
Proof.
  revert w. induction urls as [|url urls IH]; intros w.
  - simpl. split; [reflexivity|]. exists []. rewrite app_nil_r.
    split; [reflexivity|]. split; [constructor|]. split; [discriminate | tauto].
  - cbn [try_urls].
    pose proof (try_download_url_spec env url filepath 10000 w) as Hone. cbv zeta in Hone.
    destruct (try_download_url env url filepath 10000 w) as [ok w1]. cbn [fst snd] in Hone.
    destruct Hone as (Hreq & Hother & Hok & Hfail). destruct ok.
    + cbn [fst snd]. split; [exact Hother|].
      exists [Fetch url]. split; [exact Hreq|]. split; [repeat constructor|].
      split; [|discriminate]. intros _.
      destruct (Hok eq_refl) as (data & Hopen & Hpk & Hsize & Hfile).
      exists url, data. split; [left|].
      split; [exact Hopen|]. split; [split; assumption | exact Hfile].
    + destruct (IH w1) as (Hother' & new & Hreq' & Hnew & Hok' & Hfail').
      split; [intros p Hp; rewrite Hother', Hother by exact Hp; reflexivity|].
      exists (Fetch url :: new). rewrite Hreq', Hreq, <- app_assoc.
      split; [reflexivity|]. split; [constructor; [exact I | exact Hnew]|].
      split.
      * intros Ht. destruct (Hok' Ht) as (u & data & Hin & H).
        exists u, data. split; [right; exact Hin | exact H].
      * intros Hf Hnone. apply Hfail'; [exact Hf|].
        destruct (Hfail eq_refl) as [[_ H]|(data & _ & _ & H)]; [exact H|].
        rewrite H. exact Hnone.
Qed.

Lemma try_archive_spec (env : environment) (b : book) (filepath : string) (w : world) :
  files w !! filepath = None ->
  let r := fst (try_archive env b filepath w) in
  let w' := snd (try_archive env b filepath w) in
  (forall p, p <> filepath -> files w' !! p = files w !! p)
  /\ exists new,
       requests w' = requests w ++ new
       /\ (id_is_positive (book_gutenberg_id b) = false -> new = [])
       /\ ((downloaded r = true /\ already_exists r = false
            /\ source r = Some "Internet Archive" /\ download_error r = None
            /\ size_kb r = file_size_kb w' filepath
            /\ id_is_positive (book_gutenberg_id b) = true
            /\ exists url data, Fetch url ∈ new /\ urlopen env url = Some data
                 /\ valid_epub_data data /\ files w' !! filepath = Some data)
           \/ (r = failed "Could not download from any source"
               /\ files w' !! filepath = None)).
Proof.
  intros Hnone. cbv zeta. unfold try_archive.
  destruct (id_is_positive (book_gutenberg_id b)) eqn:Hid.
  - pose proof (search_internet_archive_urls env (book_title b) (book_author b) w)
      as (Hsfiles & (snew & Hsreq & _ & _) & _).
    destruct (search_internet_archive env (book_title b) (book_author b) w)
      as [ia_urls w2]. cbn [fst snd] in Hsfiles, Hsreq.
    pose proof (try_urls_spec env ia_urls filepath w2)
      as (Hother3 & new3 & Hreq3 & Hnew3 & Hok3 & Hfail3).
    destruct (try_urls env ia_urls filepath w2) as [ok3 w3]. cbn [fst snd] in *.
    assert (Hothers : forall p, p <> filepath -> files w3 !! p = files w !! p).
    { intros p Hp. rewrite Hother3, Hsfiles by exact Hp. reflexivity. }
    assert (Hreqs : requests w3
                    = requests w ++ Search (book_title b) (book_author b) :: snew ++ new3).
    { rewrite Hreq3, Hsreq, <- !app_assoc. reflexivity. }
    destruct ok3; cbn [fst snd]; (split; [exact Hothers|]);
      exists (Search (book_title b) (book_author b) :: snew ++ new3);
      (split; [exact Hreqs|]); (split; [discriminate|]).
    + left. destruct (Hok3 eq_refl) as (u & data & Hin & H).
      repeat split. exists u, data. split; [|exact H].
      right. apply elem_of_app. right. exact Hin.
    + right. split; [reflexivity|]. apply Hfail3; [reflexivity|].
      rewrite Hsfiles. exact Hnone.
  - cbn [fst snd]. split; [reflexivity|]. exists []. rewrite app_nil_r.
    split; [reflexivity|]. split; [reflexivity|]. right. split; [reflexivity | exact Hnone].
Qed.

(** The outcomes of [download_book], with what holds in each. *)
Lemma download_book_summary (env : environment) (b : book) (output_dir : string)
    (w : world) :
  let filepath := path_join env output_dir (book_filename b) in
  let r := fst (download_book env b output_dir w) in
  let w' := snd (download_book env b output_dir w) in
  (forall p, p <> filepath -> files w' !! p = files w !! p)
  /\ exists new,
       requests w' = requests w ++ new
       /\ (id_is_positive (book_gutenberg_id b) = false ->
           Forall is_fetch new /\ length new <= 1)
       /\ (((exists data, files w !! filepath = Some data)
            /\ r = {| downloaded := false; already_exists := true; source := None;
                      size_kb := file_size_kb w filepath; download_error := None |}
            /\ w' = w)
           \/ (files w !! filepath = None /\ truthy (book_url b) = false
               /\ id_is_zero (book_gutenberg_id b) = true
               /\ r = failed "No source available (marked as unavailable)" /\ w' = w)
           \/ (files w !! filepath = None
               /\ downloaded r = true /\ already_exists r = false
               /\ download_error r = None /\ size_kb r = file_size_kb w' filepath
               /\ (exists url data, Fetch url ∈ new /\ urlopen env url = Some data
                     /\ valid_epub_data data /\ files w' !! filepath = Some data)
               /\ ((source r = Some "Internet Archive"
                    /\ id_is_positive (book_gutenberg_id b) = true)
                   \/ (exists url, book_url b = Some url /\ new = [Fetch url]
                         /\ source r = Some (if contains "gutenberg.org" url
                                             then "Gutenberg" else "Direct URL"))))
           \/ (files w !! filepath = None
               /\ r = failed "Could not download from any source"
               /\ files w' !! filepath = None
               /\ (truthy (book_url b) = true \/ id_is_zero (book_gutenberg_id b) = false))).
Proof.
  cbv zeta. unfold download_book. cbv zeta.
  set (filepath := path_join env output_dir (book_filename b)).
  destruct (files w !! filepath) as [existing|] eqn:Hfile.
  { cbn [fst snd]. split; [reflexivity|]. exists []. rewrite app_nil_r.
    split; [reflexivity|]. split; [intros _; split; [constructor | simpl; lia]|].
    left. split; [eexists; reflexivity|]. split; reflexivity. }
  destruct (truthy (book_url b)) eqn:Hurl; cbn [negb andb].
  - assert (Hsome : exists url, book_url b = Some url).
    { destruct (book_url b) as [url|]; [eexists; reflexivity | discriminate]. }
    destruct Hsome as [url Hb]. rewrite Hb. change (default "" (Some url)) with url.
    pose proof (try_download_url_spec env url filepath 10000 w) as Hone. cbv zeta in Hone.
    destruct (try_download_url env url filepath 10000 w) as [ok w1]. cbn [fst snd] in Hone.
    destruct Hone as (Hreq & Hother & Hok & Hfail). destruct ok.
    + destruct (Hok eq_refl) as (data & Hopen & Hpk & Hsize & Hdata).
      cbn [fst snd]. split; [exact Hother|].
      exists [Fetch url]. split; [exact Hreq|].
      split; [intros _; split; [repeat constructor | simpl; lia]|].
      right. right. left. split; [reflexivity|]. repeat split.
      * exists url, data. split; [left|]. split; [exact Hopen|].
        split; [split; assumption | exact Hdata].
      * right. exists url. repeat split.
    + assert (Hnone1 : files w1 !! filepath = None).
      { destruct (Hfail eq_refl) as [[_ H]|(data & _ & _ & H)]; [exact H|].
        rewrite H. exact Hfile. }
      pose proof (try_archive_spec env b filepath w1 Hnone1) as Harch. cbv zeta in Harch.
      destruct (try_archive env b filepath w1) as [r w3]. cbn [fst snd] in *.
      destruct Harch as (Hother3 & new & Hreq3 & Hnoid & Hcases).
      split; [intros p Hp; rewrite Hother3, Hother by exact Hp; reflexivity|].
      exists (Fetch url :: new). split; [rewrite Hreq3, Hreq, <- app_assoc; reflexivity|].
      split.
      { intros Hid. rewrite (Hnoid Hid). split; [repeat constructor | simpl; lia]. }
      destruct Hcases as [(Hd & He & Hs & Herr & Hsize & Hid & u & data & Hin & H)|[Hr Hn]].
      * right. right. left. split; [reflexivity|].
        split; [exact Hd|]. split; [exact He|]. split; [exact Herr|]. split; [exact Hsize|].
        split; [exists u, data; split; [right; exact Hin | exact H]|].
        left. split; assumption.
      * right. right. right. split; [reflexivity|]. split; [exact Hr|].
        split; [exact Hn | left; reflexivity].
  - destruct (id_is_zero (book_gutenberg_id b)) eqn:Hzero.
    { cbn [fst snd]. split; [reflexivity|]. exists []. rewrite app_nil_r.
      split; [reflexivity|]. split; [intros _; split; [constructor | simpl; lia]|].
      right. left. repeat split. }
    pose proof (try_archive_spec env b filepath w Hfile) as Harch. cbv zeta in Harch.
    destruct (try_archive env b filepath w) as [r w3]. cbn [fst snd] in *.
    destruct Harch as (Hother3 & new & Hreq3 & Hnoid & Hcases).
    split; [exact Hother3|]. exists new. split; [exact Hreq3|].
    split.
    { intros Hid. rewrite (Hnoid Hid). split; [constructor | simpl; lia]. }
    destruct Hcases as [(Hd & He & Hs & Herr & Hsize & Hid & u & data & Hin & H)|[Hr Hn]].
    * right. right. left. split; [reflexivity|].
      split; [exact Hd|]. split; [exact He|]. split; [exact Herr|]. split; [exact Hsize|].
      split; [exists u, data; split; [exact Hin | exact H]|].
      left. split; assumption.
    * right. right. right. split; [reflexivity|]. split; [exact Hr|].
      split; [exact Hn | right; reflexivity].
Qed.

(** X14.  [download_book] ends in exactly one of three ways: the file was
    there (nothing downloaded, no error), the file was downloaded (no
    error, and the source is Gutenberg, Direct URL or Internet Archive),
    or there is an error, one of the two messages, with no source and
    size 0. *)
Theorem download_book_outcome (env : environment) (b : book) (output_dir : string)
    (w : world) :
  (already_exists (fst (download_book env b output_dir w)) = true
   /\ downloaded (fst (download_book env b output_dir w)) = false
   /\ download_error (fst (download_book env b output_dir w)) = None
   /\ source (fst (download_book env b output_dir w)) = None)
  \/ (already_exists (fst (download_book env b output_dir w)) = false
      /\ downloaded (fst (download_book env b output_dir w)) = true
      /\ download_error (fst (download_book env b output_dir w)) = None
      /\ exists label, source (fst (download_book env b output_dir w)) = Some label
                       /\ label ∈ ["Gutenberg"; "Direct URL"; "Internet Archive"])
  \/ (already_exists (fst (download_book env b output_dir w)) = false
      /\ downloaded (fst (download_book env b output_dir w)) = false
      /\ source (fst (download_book env b output_dir w)) = None
      /\ size_kb (fst (download_book env b output_dir w)) = 0%Q
      /\ (download_error (fst (download_book env b output_dir w))
          = Some "No source available (marked as unavailable)"
          \/ download_error (fst (download_book env b output_dir w))
             = Some "Could not download from any source")).
Proof.
  destruct (download_book_summary env b output_dir w) as (_ & new & _ & _ & Hcases).
  destruct Hcases as [(_ & -> & _)|[(_ & _ & _ & -> & _)|[H|(_ & -> & _)]]].
  - left. repeat split.
  - right. right. repeat split. left. reflexivity.
  - right. left. destruct H as (_ & Hd & He & Herr & _ & _ & Hsrc).
    split; [exact He|]. split; [exact Hd|]. split; [exact Herr|].
    destruct Hsrc as [[Hs _]|(url & _ & _ & Hs)]; rewrite Hs.
    + eexists. split; [reflexivity|]. right. right. left.
    + destruct (contains "gutenberg.org" url); eexists; (split; [reflexivity|]);
        [left | right; left].
  - right. right. repeat split. right. reflexivity.
Qed.

(** X15.  When [download_book] reports a download, the file is there
    afterwards and holds the body of a response to one of the requests
    just sent, a body that begins with PK and has at least 10000 bytes;
    the size reported is the size of that body in units of 1024. *)
Theorem downloaded_file_is_valid (env : environment) (b : book) (output_dir : string)
    (w : world)
    (Hdone : downloaded (fst (download_book env b output_dir w)) = true) :
  exists new url data,
    requests (snd (download_book env b output_dir w)) = requests w ++ new
    /\ Fetch url ∈ new /\ urlopen env url = Some data
    /\ startswith "PK" data = true /\ (10000 <= Z.of_nat (len data))%Z
    /\ files (snd (download_book env b output_dir w))
         !! path_join env output_dir (book_filename b) = Some data
    /\ size_kb (fst (download_book env b output_dir w))
       = (inject_Z (Z.of_nat (len data)) / 1024)%Q.
Proof.
  destruct (download_book_summary env b output_dir w) as (_ & new & Hreq & _ & Hcases).
  destruct Hcases as [(_ & Hr & _)|[(_ & _ & _ & Hr & _)|[H|(_ & Hr & _)]]];
    try (rewrite Hr in Hdone; discriminate).
  destruct H as (_ & _ & _ & _ & Hsize & (url & data & Hin & Hopen & [Hpk Hlen] & Hfile) & _).
  exists new, url, data. repeat split; try assumption.
  rewrite Hsize. unfold file_size_kb. rewrite Hfile. reflexivity.
Qed.

Lemma downloaded_file_is_valid_witness :
  downloaded (fst (download_book online emma_book "classics" empty_world)) = true
  /\ exists data,
       files (snd (download_book online emma_book "classics" empty_world))
         !! "classics/Emma_Austen.epub" = Some data
       /\ startswith "PK" data = true.
Proof.
  assert (H : downloaded (fst (download_book online emma_book "classics" empty_world)) = true)
    by (vm_compute; reflexivity).
  split; [exact H|].
  destruct (downloaded_file_is_valid online emma_book "classics" empty_world H)
    as (_ & _ & data & _ & _ & _ & Hpk & _ & Hfile & _).
  exists data. split; [exact Hfile | exact Hpk].
Defined.

(** X16.  [download_book] asks the network for nothing it does not need:
    it sends no request and leaves the world as it is when the file is
    there, and when the book has no address and the Gutenberg number 0;
    and without a positive Gutenberg number it sends at most one request,
    a download, and never searches the Internet Archive. *)
Theorem download_book_requests (env : environment) (b : book) (output_dir : string)
    (w : world) :
  (files w !! path_join env output_dir (book_filename b) <> None ->
     snd (download_book env b output_dir w) = w)
  /\ (truthy (book_url b) = false -> book_gutenberg_id b = Some 0%Z ->
        snd (download_book env b output_dir w) = w)
  /\ (id_is_positive (book_gutenberg_id b) = false ->
        exists new,
          requests (snd (download_book env b output_dir w)) = requests w ++ new
          /\ Forall is_fetch new /\ length new <= 1).
Proof.
  destruct (download_book_summary env b output_dir w) as (_ & new & Hreq & Hnoid & Hcases).
  split; [|split].
  - intros Hfile.
    destruct Hcases as [(_ & _ & Hw)|[(Hn & _)|[(Hn & _)|(Hn & _)]]];
      [exact Hw | contradiction..].
  - intros Hurl Hid. unfold download_book. cbv zeta.
    destruct (files w !! path_join env output_dir (book_filename b)); [reflexivity|].
    rewrite Hurl, Hid. reflexivity.
  - intros Hid. exists new. split; [exact Hreq | exact (Hnoid Hid)].
Qed.

(** X17.  A [download_book] that does not report a download has changed
    no file at all, and one that does has changed only the file of the
    book. *)
Theorem download_book_files (env : environment) (b : book) (output_dir : string)
    (w : world) :
  (downloaded (fst (download_book env b output_dir w)) = false ->
     files (snd (download_book env b output_dir w)) = files w)
  /\ (forall p, p <> path_join env output_dir (book_filename b) ->
        files (snd (download_book env b output_dir w)) !! p = files w !! p).
Proof.
  destruct (download_book_summary env b output_dir w) as (Hother & new & _ & _ & Hcases).
  split; [|exact Hother]. intros Hdone.
  destruct Hcases as [(_ & _ & ->)|[(_ & _ & _ & _ & ->)|[H|(Hn & _ & Hn' & _)]]];
    try reflexivity.
  - destruct H as (_ & Hd & _). congruence.
  - apply map_eq. intros p.
    destruct (decide (p = path_join env output_dir (book_filename b))) as [->|Hp].
    + rewrite Hn, Hn'. reflexivity.
    + apply Hother. exact Hp.
Qed.

(** ** Cache *)

Lemma load_existing_csv_snoc (rows : list csv_row) (row : csv_row) :
  load_existing_csv (rows ++ [row])
  = let filename := default "" (row !! "filename") in
    if nonempty filename then <[filename := row]> (load_existing_csv rows)
    else load_existing_csv rows.
Proof. unfold load_existing_csv. rewrite foldl_app. reflexivity. Qed.

(** X18.  The cache that [load_existing_csv] builds holds, under a file
    name, the last row of the file with that name in its [filename]
    column; rows with an empty or missing [filename] are left out, and
    the empty name is no key. *)
Theorem load_existing_csv_lookup (rows : list csv_row) (filename : string) :
  load_existing_csv rows !! "" = None
  /\ (filename <> "" ->
      load_existing_csv rows !! filename
      = last (filter (fun row => row !! "filename" = Some filename) rows))
  /\ (forall row, load_existing_csv rows !! filename = Some row ->
        row ∈ rows /\ row !! "filename" = Some filename).
Proof.
  induction rows as [|row rows IH] using rev_ind.
  - split; [reflexivity|]. split; [reflexivity|]. intros row H.
    unfold load_existing_csv in H. simpl in H. rewrite lookup_empty in H. discriminate.
  - destruct IH as (IH1 & IH2 & IH3). rewrite load_existing_csv_snoc. cbv zeta.
    rewrite filter_app, filter_cons, filter_nil.
    destruct (row !! "filename") as [name|] eqn:Hname; cbn [default from_option id].
    + destruct name as [|c name']; cbn [nonempty].
      * split; [exact IH1|]. split.
        { intros Hne. destruct (decide (Some "" = Some filename)) as [Heq|_]; [congruence|].
          rewrite app_nil_r. apply IH2. exact Hne. }
        intros r Hr. destruct (IH3 r Hr) as [Hin Hf].
        split; [apply elem_of_app; left; exact Hin | exact Hf].
      * split; [rewrite lookup_insert_ne by discriminate; exact IH1|]. split.
        { intros Hne. destruct (decide (Some (String c name') = Some filename)) as [Heq|Hneq].
          - injection Heq as <-. rewrite lookup_insert_eq, last_snoc. reflexivity.
          - rewrite lookup_insert_ne by congruence. rewrite app_nil_r. apply IH2. exact Hne. }
        intros r Hr. destruct (decide (String c name' = filename)) as [<-|Hneq].
        { rewrite lookup_insert_eq in Hr. injection Hr as <-.
          split; [apply elem_of_app; right; left | exact Hname]. }
        rewrite lookup_insert_ne in Hr by exact Hneq. destruct (IH3 r Hr) as [Hin Hf].
        split; [apply elem_of_app; left; exact Hin | exact Hf].
    + cbn [nonempty]. split; [exact IH1|]. split.
      { intros Hne. destruct (decide (None = Some filename)) as [Heq|_]; [discriminate|].
        rewrite app_nil_r. apply IH2. exact Hne. }
      intros r Hr. destruct (IH3 r Hr) as [Hin Hf].
      split; [apply elem_of_app; left; exact Hin | exact Hf].
Qed.

Lemma is_book_complete_spec (row : csv_row) :
  is_book_complete (Some row) = true <->
  row !! "file_exists" = Some "True"
  /\ exists grade, row !! "grade_level" = Some grade /\ grade <> "".
Proof.
  unfold is_book_complete.
  destruct (decide (row = ∅)) as [->|Hne].
  - rewrite bool_decide_eq_true_2 by reflexivity. rewrite lookup_empty.
    split; [discriminate | intros [H _]; discriminate].
  - rewrite bool_decide_eq_false_2 by exact Hne.
    destruct (decide (row !! "file_exists" = Some "True")) as [Hf|Hf].
    + rewrite bool_decide_eq_true_2 by exact Hf. cbn [negb].
      destruct (row !! "grade_level") as [[|c g]|]; cbn [truthy negb].
      * split; [discriminate | intros (_ & g & Hg & Hne'); congruence].
      * split; [intros _; split; [exact Hf | eexists; split; [reflexivity | discriminate]]
               | reflexivity].
      * split; [discriminate | intros (_ & g & Hg & _); discriminate].
    + rewrite bool_decide_eq_false_2 by exact Hf. cbn [negb].
      split; [discriminate | intros [H _]; contradiction].
Qed.

(** X19.  Whether a cached row counts as complete depends on two columns
    only: the row is complete exactly when [file_exists] is the text
    [True] and [grade_level] is not empty.  So setting or removing any
    other column, the theme columns among them, never changes it. *)
Theorem is_book_complete_two_columns (row : csv_row) (column value : string)
    (Hfile : column <> "file_exists") (Hgrade : column <> "grade_level") :
  (is_book_complete (Some row) = true <->
     row !! "file_exists" = Some "True"
     /\ exists grade, row !! "grade_level" = Some grade /\ grade <> "")
  /\ is_book_complete (Some (<[column := value]> row)) = is_book_complete (Some row)
  /\ is_book_complete (Some (delete column row)) = is_book_complete (Some row).
Proof.
  split; [apply is_book_complete_spec|].
  assert (Hiff : forall r1 r2 : csv_row,
             r1 !! "file_exists" = r2 !! "file_exists" ->
             r1 !! "grade_level" = r2 !! "grade_level" ->
             is_book_complete (Some r1) = is_book_complete (Some r2)).
  { intros r1 r2 H1 H2. apply eq_true_iff_eq. rewrite !is_book_complete_spec, H1, H2.
    reflexivity. }
  split; apply Hiff.
  - apply lookup_insert_ne. exact Hfile.
  - apply lookup_insert_ne. exact Hgrade.
  - apply lookup_delete_ne. exact Hfile.
  - apply lookup_delete_ne. exact Hgrade.
Qed.

Lemma is_book_complete_two_columns_witness :
  is_book_complete
    (Some (<["theme_1" := "Adventure"]>
             ({["file_exists" := "True"; "grade_level" := "4.0"]} : csv_row)))
  = is_book_complete (Some ({["file_exists" := "True"; "grade_level" := "4.0"]} : csv_row)).
Proof.
  apply (is_book_complete_two_columns
           ({["file_exists" := "True"; "grade_level" := "4.0"]} : csv_row)
           "theme_1" "Adventure"); discriminate.
Defined.

(** ** One book of a category *)

Lemma theme_labels_nonempty (theme_id label : string) :
  dict_get THEME_LABELS theme_id = Some label -> label <> "".
Proof.
  unfold THEME_LABELS. cbn [dict_get].
  repeat match goal with
  | |- context [String.eqb ?a theme_id] => destruct (String.eqb a theme_id)
  end; intros H; inversion H; discriminate.
Qed.

(** Whatever the text, [detect_themes] returns at most [top_n] labels,
    none of them empty. *)
Lemma detect_themes_shape (text : string) (lang : option string) (top_n : Z) :
  (0 <= top_n)%Z ->
  length (detect_themes text lang top_n) <= Z.to_nat top_n
  /\ Forall (fun label => label <> "") (detect_themes text lang top_n).
Proof.
  intros Htop. unfold detect_themes.
  destruct (nonempty text); cbn [negb]; [|split; [simpl; lia | constructor]].
  cbv zeta. destruct (length (split text) =? 0); [split; [simpl; lia | constructor]|].
  unfold slice_to. apply Z.leb_le in Htop. rewrite Htop. split.
  - rewrite length_map. etransitivity; [apply length_filter|].
    rewrite length_take. lia.
  - apply Forall_forall. intros label Hl.
    apply list_elem_of_fmap in Hl as (x & -> & Hx).
    apply list_elem_of_filter in Hx as [_ Hx].
    apply subseteq_take, elem_of_py_sorted in Hx.
    apply theme_scores_ids in Hx as (theme & Hin & Heq). rewrite <- Heq.
    pose proof (taxonomy_labelled (resolve_language text lang)) as Hlab.
    rewrite Forall_forall in Hlab. eapply theme_labels_nonempty. apply Hlab. exact Hin.
Qed.

Lemma process_book_eq (pk : packages) (env : environment) (pf : platform) (b : book)
    (folder_path : string) (w : world) :
  let dl := fst (download_book env b folder_path w) in
  let w' := snd (download_book env b folder_path w) in
  snd (process_book pk env pf b folder_path w) = w'
  /\ match files w' !! book_path env b folder_path with
     | Some content =>
         let epub_meta := extract_epub_metadata (zip_open pf content) in
         let r := fst (process_book pk env pf b folder_path w) in
         rec_file_exists r = true
         /\ rec_file_size_kb r = round1 (inject_Z (Z.of_nat (len content)) / 1024)
         /\ rec_actual_title r = title epub_meta
         /\ rec_actual_author r = author epub_meta
         /\ rec_title_match r
            = Some (title_match (verify_metadata (book_title b) (book_author b) epub_meta))
         /\ rec_author_match r
            = Some (author_match (verify_metadata (book_title b) (book_author b) epub_meta))
         /\ rec_language r = an_language (analyze pk epub_meta (book_text pf content))
         /\ rec_grade_level r = an_grade_level (analyze pk epub_meta (book_text pf content))
         /\ rec_cefr r = an_cefr (analyze pk epub_meta (book_text pf content))
         /\ rec_themes r = an_themes (analyze pk epub_meta (book_text pf content))
     | None =>
         let r := fst (process_book pk env pf b folder_path w) in
         rec_file_exists r = false /\ rec_file_size_kb r = 0%Q
         /\ rec_actual_title r = None /\ rec_actual_author r = None
         /\ rec_title_match r = None /\ rec_author_match r = None
         /\ rec_language r = None /\ rec_grade_level r = None
         /\ rec_cefr r = None /\ rec_themes r = []
     end
  /\ rec_download_source (fst (process_book pk env pf b folder_path w))
     = (if downloaded dl then source dl else None)
  /\ rec_download_error (fst (process_book pk env pf b folder_path w))
     = (if downloaded dl || already_exists dl then None
        else if truthy (download_error dl) then download_error dl else None).
Proof.
  cbv zeta. unfold process_book, book_path. cbv zeta.
  destruct (download_book env b folder_path w) as [dl w']. cbn [fst snd].
  destruct (files w' !! path_join env folder_path (book_filename b)) as [content|];
    cbn [fst snd]; repeat split.
Qed.

Lemma analyze_short (pk : packages) (epub_meta : metadata) (text : string) :
  len text <= 500 -> analyze pk epub_meta text = no_analysis.
Proof.
  intros H. unfold analyze. apply Nat.ltb_ge in H. rewrite H, andb_false_r. reflexivity.
Qed.

Lemma detect_language_nonempty (text : string) : detect_language text <> "".
Proof.
  unfold detect_language.
  destruct (language_scores text) as [|x l] eqn:Hs; [discriminate Hs|].
  intros Hempty.
  assert (Hin : fst (max_first x l) ∈ map fst (language_scores text)).
  { destruct (max_first_split x l) as (pre & post & Heq & _).
    rewrite Hs, Heq, map_app. apply elem_of_app. right. left. }
  rewrite Hempty in Hin. vm_compute in Hin.
  repeat (apply elem_of_cons in Hin as [Hin|Hin]; [discriminate|]). inversion Hin.
Qed.

Lemma analyze_long (pk : packages) (epub_meta : metadata) (text : string) :
  500 < len text ->
  exists lang,
    lang <> ""
    /\ (truthy (language epub_meta) = true -> language epub_meta = Some lang)
    /\ (truthy (language epub_meta) = false -> lang = detect_language text)
    /\ analyze pk epub_meta text
       = {| an_language := Some lang;
            an_grade_level := grade_level (calculate_reading_difficulty pk text (Some lang));
            an_cefr := cefr (calculate_reading_difficulty pk text (Some lang));
            an_themes := detect_themes text (Some lang) 5 |}.
Proof.
  intros H. unfold analyze.
  assert (Hne : nonempty text = true) by (destruct text; [simpl in H; lia | reflexivity]).
  apply Nat.ltb_lt in H. rewrite Hne, H. cbn [andb]. cbv zeta.
  destruct (language epub_meta) as [[|c l]|] eqn:Hl; cbn [truthy default from_option id].
  - exists (detect_language text). split; [apply detect_language_nonempty|].
    split; [discriminate|]. split; reflexivity.
  - exists (String c l). split; [discriminate|]. split; [reflexivity|].
    split; [discriminate | reflexivity].
  - exists (detect_language text). split; [apply detect_language_nonempty|].
    split; [discriminate|]. split; reflexivity.
Qed.

Lemma textstat_absent (pk : packages) (text lang : string) :
  TEXTSTAT_AVAILABLE pk = false -> textstat_grade pk text lang = None.
Proof. intros H. unfold textstat_grade. rewrite H. reflexivity. Qed.

Lemma analyze_grade_level (pk : packages) (epub_meta : metadata) (text : string) :
  TEXTSTAT_AVAILABLE pk = false ->
  an_grade_level (analyze pk epub_meta text) <> None
  <-> 500 < len text /\ 10 <= word_count text.
Proof.
  intros Htier. destruct (Nat.le_gt_cases (len text) 500) as [Hshort|Hlong].
  - rewrite analyze_short by exact Hshort. cbn [an_grade_level no_analysis].
    split; [congruence | lia].
  - destruct (analyze_long pk epub_meta text Hlong) as (lang & Hne & _ & _ & ->).
    cbn [an_grade_level].
    rewrite calculate_fallback by first [lia | apply textstat_absent; exact Htier].
    destruct (Nat.lt_ge_cases (word_count text) 10) as [Hfew|Hmany].
    + rewrite manual_calculation_few_words by exact Hfew. cbn [grade_level].
      split; [congruence | lia].
    + rewrite manual_calculation_grade by exact Hmany. cbn [grade_level].
      split; [intros _; split; assumption | discriminate].
Qed.

(** X20.  Without textstat, a processed book gets a grade level exactly
    when its file is there after the download step, the text extracted
    from it has more than 500 characters, and the cleanup of that text
    leaves at least 10 words.  (The reason Text too short cannot arise
    here: the scorer is only called on more than 500 characters.) *)
Theorem processed_book_grade_level (pk : packages) (env : environment) (pf : platform)
    (b : book) (folder_path : string) (w : world)
    (Htier : TEXTSTAT_AVAILABLE pk = false) :
  rec_grade_level (fst (process_book pk env pf b folder_path w)) <> None
  <-> exists content,
        files (snd (download_book env b folder_path w))
          !! path_join env folder_path (book_filename b) = Some content
        /\ 500 < len (extract_text_from_epub (archive_of pf <$> zip_open pf content) 500000)
        /\ 10 <= word_count
                   (extract_text_from_epub (archive_of pf <$> zip_open pf content) 500000).
Proof.
  destruct (process_book_eq pk env pf b folder_path w) as (_ & Hrec & _).
  unfold book_path in Hrec.
  destruct (files (snd (download_book env b folder_path w))
              !! path_join env folder_path (book_filename b)) as [content|].
  - cbv zeta in Hrec. destruct Hrec as (_ & _ & _ & _ & _ & _ & _ & -> & _).
    rewrite analyze_grade_level by exact Htier. unfold book_text. split.
    + intros H. exists content. split; [reflexivity | exact H].
    + intros (c & Hc & H). injection Hc as <-. exact H.
  - cbv zeta in Hrec. destruct Hrec as (_ & _ & _ & _ & _ & _ & _ & -> & _).
    split; [congruence | intros (c & Hc & _); discriminate].
Qed.

Lemma processed_book_grade_level_witness :
  TEXTSTAT_AVAILABLE no_packages = false
  /\ rec_grade_level (fst (process_book no_packages offline story_platform emma_book
                             "classics" stocked_world)) <> None.
Proof.
  split; [reflexivity|].
  apply (processed_book_grade_level no_packages offline story_platform emma_book
           "classics" stocked_world eq_refl).
  exists "PK". split; [vm_compute; reflexivity|]. split; vm_compute; lia.
Defined.

(** X21.  In the record of a processed book, [file_exists] is true
    exactly when the download step found the file or downloaded it.
    Then there is no download error and both match flags are set; else
    the size is 0, the error is one of the two messages of
    [download_book], and title, author, match flags, language, grade,
    band and themes are all empty.  A download source is recorded only
    for a download. *)
Theorem processed_book_file_exists (pk : packages) (env : environment) (pf : platform)
    (b : book) (folder_path : string) (w : world) :
  let dl := fst (download_book env b folder_path w) in
  let r := fst (process_book pk env pf b folder_path w) in
  rec_file_exists r = already_exists dl || downloaded dl
  /\ (rec_file_exists r = true ->
        rec_download_error r = None
        /\ rec_title_match r <> None /\ rec_author_match r <> None)
  /\ (rec_file_exists r = false ->
        rec_file_size_kb r = 0%Q
        /\ (rec_download_error r = Some "No source available (marked as unavailable)"
            \/ rec_download_error r = Some "Could not download from any source")
        /\ rec_actual_title r = None /\ rec_actual_author r = None
        /\ rec_title_match r = None /\ rec_author_match r = None
        /\ rec_language r = None /\ rec_grade_level r = None /\ rec_cefr r = None
        /\ rec_themes r = [])
  /\ (rec_download_source r <> None <-> downloaded dl = true).
Proof.
  cbv zeta.
  destruct (process_book_eq pk env pf b folder_path w) as (_ & Hrec & Hsrc & Herr).
  cbv zeta in Hsrc, Herr. unfold book_path in Hrec.
  destruct (download_book_summary env b folder_path w) as (_ & new & _ & _ & Hcases).
  cbv zeta in Hcases.
  set (dl := fst (download_book env b folder_path w)) in *.
  set (w' := snd (download_book env b folder_path w)) in *.
  set (r := fst (process_book pk env pf b folder_path w)) in *.
  rewrite Hsrc, Herr.
  destruct Hcases as [([data Hfile] & Hdl & Hw)|[(Hfile & _ & _ & Hdl & Hw)
                     |[(_ & Hd & He & Herr' & _ & (u & data & _ & _ & _ & Hfile) & Hs)
                      |(_ & Hdl & Hfile & _)]]].
  - rewrite Hw, Hfile in Hrec. cbv zeta in Hrec.
    destruct Hrec as (-> & _ & _ & _ & -> & -> & _). rewrite Hdl.
    cbn [already_exists downloaded orb].
    split; [reflexivity|]. split; [intros _; repeat split; discriminate|].
    split; [discriminate|]. split; [congruence | discriminate].
  - rewrite Hw, Hfile in Hrec. destruct Hrec as (-> & -> & -> & -> & -> & -> & -> & -> & -> & ->).
    rewrite Hdl. cbn [failed already_exists downloaded orb download_error truthy].
    split; [reflexivity|]. split; [discriminate|].
    split; [intros _; repeat split; left; reflexivity|]. split; [congruence | discriminate].
  - rewrite Hfile in Hrec. cbv zeta in Hrec.
    destruct Hrec as (-> & _ & _ & _ & -> & -> & _). rewrite Hd, He. cbn [orb].
    split; [reflexivity|]. split; [intros _; repeat split; discriminate|].
    split; [discriminate|]. split; [reflexivity|]. intros _.
    destruct Hs as [[-> _]|(url & _ & _ & ->)]; discriminate.
  - rewrite Hfile in Hrec. destruct Hrec as (-> & -> & -> & -> & -> & -> & -> & -> & -> & ->).
    rewrite Hdl. cbn [failed already_exists downloaded orb download_error truthy].
    split; [reflexivity|]. split; [discriminate|].
    split; [intros _; repeat split; right; reflexivity|]. split; [congruence | discriminate].
Qed.

Lemma written_row_file_exists (pf : platform) (r : gmap string value) (themes : list string) :
  written_row pf r themes !! "file_exists"
  = Some (csv_str pf (default (VStr "") (r !! "file_exists"))).
Proof. reflexivity. Qed.

Lemma written_row_grade_level (pf : platform) (r : gmap string value) (themes : list string) :
  written_row pf r themes !! "grade_level"
  = Some (csv_str pf (default (VStr "") (r !! "grade_level"))).
Proof. reflexivity. Qed.

(** X22.  The record of a processed book, written by [write_csv] and read
    back, counts as complete exactly when its file exists and it has a
    grade level, provided [str] of a number is never the empty string. *)
Theorem written_record_complete (pf : platform) (base : gmap string value)
    (r : catalog_record) (themes : list string)
    (Hstr : forall x, str_num pf x <> "") :
  is_book_complete (Some (written_row pf (result_fields base r) themes)) = true
  <-> rec_file_exists r = true /\ rec_grade_level r <> None.
Proof.
  rewrite is_book_complete_spec, written_row_file_exists, written_row_grade_level.
  unfold result_fields. rewrite lookup_insert_eq.
  do 9 (rewrite lookup_insert_ne by discriminate). rewrite lookup_insert_eq.
  cbn [default from_option id]. split.
  - intros (Hf & g & Hg & Hne). split.
    + destruct (rec_file_exists r); [reflexivity | discriminate].
    + destruct (rec_grade_level r); [discriminate|]. cbn in Hg. congruence.
  - intros [-> Hg]. split; [reflexivity|].
    destruct (rec_grade_level r) as [x|]; [|contradiction].
    eexists. split; [reflexivity|]. apply Hstr.
Qed.

Lemma written_record_complete_witness :
  (forall x, str_num bare_platform x <> "")
  /\ is_book_complete (Some (written_row bare_platform (result_fields ∅ analysed_record)
                               (rec_themes analysed_record))) = true.
Proof.
  assert (H : forall x, str_num bare_platform x <> "") by (intros x; discriminate).
  split; [exact H|].
  apply (written_record_complete bare_platform ∅ analysed_record
           (rec_themes analysed_record) H).
  split; [reflexivity | discriminate].
Defined.

Lemma cached_themes_written (pf : platform) (r : gmap string value) (themes : list string) :
  cached_themes (written_row pf r themes)
  = omap (fun t => if nonempty t then Some t else None) (theme_columns themes).
Proof.
  unfold cached_themes, theme_fieldnames, theme_columns. cbn [omap list_omap seq map].
  change (written_row pf r themes !! "theme_1") with (Some (default "" (themes !! 0))).
  change (written_row pf r themes !! "theme_2") with (Some (default "" (themes !! 1))).
  change (written_row pf r themes !! "theme_3") with (Some (default "" (themes !! 2))).
  change (written_row pf r themes !! "theme_4") with (Some (default "" (themes !! 3))).
  change (written_row pf r themes !! "theme_5") with (Some (default "" (themes !! 4))).
  rewrite !truthy_Some.
  repeat match goal with
  | |- context [default "" ?x] => destruct (default "" x)
  end; reflexivity.
Qed.

Lemma theme_columns_filter (themes : list string) :
  omap (fun t => if nonempty t then Some t else None) (theme_columns themes)
  = filter (fun t => t <> "") (take 5 themes).
Proof.
  unfold theme_columns. cbn [seq map].
  destruct themes as [|t1 [|t2 [|t3 [|t4 [|t5 rest]]]]];
    cbn [lookup list_lookup default from_option id take omap list_omap nonempty];
    rewrite ?filter_cons, ?filter_nil;
    repeat match goal with
    | |- context [nonempty ?t] => destruct t; cbn [nonempty]
    end;
    repeat match goal with
    | |- context [decide ?P] =>
        let H := fresh in
        destruct (decide P) as [H|H];
        try (exfalso; first [apply H; discriminate | congruence])
    end; reflexivity.
Qed.

(** X23.  The five theme columns keep the themes: what is read back from
    a written row is the first five themes without the empty ones.  The
    themes of a processed book come back exactly as they were found:
    there are at most five, and none is empty. *)
Theorem themes_survive_csv (pk : packages) (env : environment) (pf : platform)
    (b : book) (folder_path : string) (w : world)
    (fields : gmap string value) (themes : list string) :
  cached_themes (written_row pf fields themes) = filter (fun t => t <> "") (take 5 themes)
  /\ cached_themes (written_row pf fields
                      (rec_themes (fst (process_book pk env pf b folder_path w))))
     = rec_themes (fst (process_book pk env pf b folder_path w)).
Proof.
  assert (Hgen : forall l, cached_themes (written_row pf fields l)
                           = filter (fun t => t <> "") (take 5 l)).
  { intros l. rewrite cached_themes_written. apply theme_columns_filter. }
  split; [apply Hgen|]. rewrite Hgen.
  assert (Hshape : length (rec_themes (fst (process_book pk env pf b folder_path w))) <= 5
                   /\ Forall (fun t => t <> "")
                        (rec_themes (fst (process_book pk env pf b folder_path w)))).
  { destruct (process_book_eq pk env pf b folder_path w) as (_ & Hrec & _).
    destruct (files _ !! _) as [content|].
    - cbv zeta in Hrec. destruct Hrec as (_ & _ & _ & _ & _ & _ & _ & _ & _ & ->).
      set (text := book_text pf content).
      destruct (Nat.le_gt_cases (len text) 500) as [Hshort|Hlong].
      + rewrite analyze_short by exact Hshort. split; [simpl; lia | constructor].
      + destruct (analyze_long pk (extract_epub_metadata (zip_open pf content)) text Hlong)
          as (lang & _ & _ & _ & ->).
        cbn [an_themes]. apply (detect_themes_shape text (Some lang) 5). lia.
    - destruct Hrec as (_ & _ & _ & _ & _ & _ & _ & _ & _ & ->).
      split; [simpl; lia | constructor]. }
  destruct Hshape as [Hlen Hne]. rewrite take_ge by exact Hlen.
  clear Hlen. induction Hne as [|t l Ht _ IH]; [reflexivity|].
  rewrite filter_cons_True by exact Ht. rewrite IH. reflexivity.
Qed.

(** ** Text extraction, continued *)

#[local] Instance String_leb_antisym : AntiSymm eq (fun a b => String.leb a b = true).
Proof. intros a b. apply String.leb_antisym. Qed.

Lemma String_leb_total (x y : string) : String.leb x y = false -> String.leb y x = true.
Proof. intros H. destruct (String.leb_total x y) as [H'|H']; congruence. Qed.

Lemma py_sorted_names (l l' : list string) :
  l ≡ₚ l' -> py_sorted String.leb l = py_sorted String.leb l'.
Proof.
  intros Hp. apply (StronglySorted_unique (fun a b => String.leb a b = true)).
  - apply py_sorted_sorted; [apply String_leb_total | apply String_leb_trans].
  - apply py_sorted_sorted; [apply String_leb_total | apply String_leb_trans].
  - rewrite !py_sorted_perm. exact Hp.
Qed.

Lemma collect_text_ext (zf zf' : archive) (max_chars : Z) (names : list string)
    (total : Z) :
  (forall n, entry_text zf n = entry_text zf' n) ->
  collect_text zf max_chars names total = collect_text zf' max_chars names total.
Proof.
  intros Hext. revert total. induction names as [|n names IH]; intros total; simpl;
    [reflexivity|].
  rewrite <- Hext. destruct (max_chars <=? total)%Z; [reflexivity|].
  destruct (entry_text zf n); rewrite IH; reflexivity.
Qed.

(** X24.  The extracted text does not depend on the order in which the
    archive stores its entries: the content documents are read in the
    order of their names. *)
Theorem extract_text_order_independent (zf zf' : archive) (max_chars : Z)
    (Hnames : namelist zf ≡ₚ namelist zf')
    (Htext : forall n, entry_text zf n = entry_text zf' n) :
  extract_text_from_epub (Some zf) max_chars = extract_text_from_epub (Some zf') max_chars.
Proof.
  unfold extract_text_from_epub, text_parts. f_equal.
  assert (Hfiles : html_files zf ≡ₚ html_files zf').
  { unfold html_files. rewrite Hnames. reflexivity. }
  rewrite (py_sorted_names _ _ Hfiles). apply collect_text_ext. exact Htext.
Qed.

Lemma extract_text_order_independent_witness :
  namelist book_in_order ≡ₚ namelist book_reversed
  /\ extract_text_from_epub (Some book_in_order) 500000
     = extract_text_from_epub (Some book_reversed) 500000.
Proof.
  assert (H : namelist book_in_order ≡ₚ namelist book_reversed) by apply Permutation_swap.
  split; [exact H|].
  apply (extract_text_order_independent book_in_order book_reversed 500000 H).
  intros n. reflexivity.
Defined.

Lemma collect_text_budget (zf : archive) (max_chars : Z) (names : list string)
    (total : Z) (pre : list string) (final : string) :
  collect_text zf max_chars names total = pre ++ [final] ->
  (total + total_len pre < max_chars)%Z.
Proof.
  revert total pre. induction names as [|n names IH]; intros total pre; simpl.
  - intros H. destruct pre; discriminate H.
  - destruct (Z.leb_spec max_chars total) as [Hle|Hlt]; [intros H; destruct pre; discriminate H|].
    destruct (entry_text zf n) as [text|]; [|apply IH].
    destruct pre as [|t pre]; cbn [app total_len foldr].
    + intros _. lia.
    + intros H. injection H as <- H. apply IH in H. fold (total_len pre). lia.
Qed.

Lemma collect_text_nothing (zf : archive) (max_chars : Z) (names : list string) (total : Z) :
  (max_chars <= total)%Z -> collect_text zf max_chars names total = [].
Proof.
  intros H. destruct names as [|n names]; [reflexivity|]. simpl.
  apply Z.leb_le in H. rewrite H. reflexivity.
Qed.

(** X25.  The character budget is checked before a document is read, not
    after: all the extracted pieces but the last have together fewer than
    [max_chars] characters, so only the last piece can take the text over
    the budget, and nothing is cut.  With a budget of zero or less no
    document is read at all. *)
Theorem text_budget_overshoot (zf : archive) (max_chars : Z) :
  (forall pre final, text_parts zf max_chars = pre ++ [final] ->
     (total_len pre < max_chars)%Z)
  /\ ((max_chars <= 0)%Z -> extract_text_from_epub (Some zf) max_chars = "").
Proof.
  split.
  - intros pre final H. apply collect_text_budget in H. lia.
  - intros H. unfold extract_text_from_epub, text_parts.
    rewrite collect_text_nothing by exact H. reflexivity.
Qed.

(** ** Readability scorer, continued *)




Lemma grade_to_cefr_Some (g : Q) : grade_to_cefr (Some g) <> None.
Proof.
  unfold grade_to_cefr.
  repeat match goal with |- context [if ?b then _ else _] => destruct b end; discriminate.
Qed.

Lemma round1_nonneg (x : Q) : (0 <= x)%Q -> (0 <= round1 x)%Q.
Proof.
  intros H. apply round1_mono in H.
  assert (H0 : (round1 0 == 0)%Q) by reflexivity. rewrite H0 in H. exact H.
Qed.

(** X27.  The result of the scorer has a grade level, a band and a
    language together or not at all, and a reason exactly when it has
    none of them.  A grade level from the manual calculation is never
    negative. *)
Theorem difficulty_result_shape (pk : packages) (text : string) (lang : option string) :
  let d := calculate_reading_difficulty pk text lang in
  (grade_level d = None <-> cefr d = None)
  /\ (grade_level d = None <-> result_language d = None)
  /\ (grade_level d = None <-> error d <> None)
  /\ (textstat_grade pk text (resolve_language text lang) = None ->
      forall g, grade_level d = Some g -> (0 <= g)%Q).
Proof.
  cbv zeta. unfold calculate_reading_difficulty.
  destruct (negb (nonempty text) || (len text <? 100)).
  { cbn [grade_level cefr error result_language].
    repeat split; intros; congruence. }
  cbv zeta. destruct (textstat_grade pk text (resolve_language text lang)) as [grade|].
  { cbn [grade_level cefr error result_language]. pose proof (grade_to_cefr_Some grade).
    repeat split; intros; congruence. }
  unfold manual_calculation. cbv zeta.
  destruct (length (split (cleanup text)) <? 10).
  { cbn [grade_level cefr error result_language].
    repeat split; intros; congruence. }
  cbn [grade_level cefr error result_language].
  match goal with |- context [grade_to_cefr (Some ?x)] =>
    pose proof (grade_to_cefr_Some x) as Hband; set (grade := x) in * end.
  repeat split; intros; try congruence.
  match goal with H : Some _ = Some _ |- _ => injection H as <- end.
  apply round1_nonneg.
  destruct (max0_spec grade) as [[Hpos ->]|[_ ->]]; lra.
Qed.

(** ** Metadata matcher, continued *)

Lemma author_rule_sym (a b : string) : author_rule a b = author_rule b a.
Proof.
  apply eq_true_iff_eq. unfold author_rule. cbv zeta.
  rewrite !andb_true_iff, !existsb_exists.
  split; intros [[Ha Hb] (ep & Hep & H)];
    apply andb_true_iff in H as [Hl H]; apply existsb_exists in H as (ap & Hap & H);
    apply andb_true_iff in H as [Hl' H];
    (split; [split; assumption|]); exists ap; (split; [exact Hap|]);
    apply andb_true_iff; (split; [exact Hl'|]); apply existsb_exists;
    exists ep; (split; [exact Hep|]); rewrite Hl; cbn [andb]; rewrite orb_comm; exact H.
Qed.

(** X28.  The author test does not depend on which name is the expected
    one and which the one of the file: with all four texts present,
    verifying a book against a file and the file against the book give
    the same author flag. *)
Theorem author_match_symmetric (expected_title expected_author : string)
    (m : metadata) (file_title file_author : string)
    (Htitle : title m = Some file_title) (Hauthor : author m = Some file_author)
    (Hft : file_title <> "") (Hfa : file_author <> "")
    (Het : expected_title <> "") (Hea : expected_author <> "") :
  author_match (verify_metadata expected_title expected_author m)
  = author_match (verify_metadata file_title file_author
                    {| title := Some expected_title; author := Some expected_author;
                       language := language m |}).
Proof.
  assert (Hpresent : forall s : string, s <> "" -> truthy (Some s) = true).
  { intros s Hs. rewrite truthy_Some. apply nonempty_true. exact Hs. }
  rewrite (verify_metadata_present expected_title expected_author m)
    by (rewrite ?Htitle, ?Hauthor; apply Hpresent; assumption).
  rewrite (verify_metadata_present file_title file_author)
    by (cbn [title author]; apply Hpresent; assumption).
  cbn [author_match title author]. rewrite Hauthor. cbn [default from_option id].
  apply author_rule_sym.
Qed.

Lemma author_match_symmetric_witness :
  author_match (verify_metadata "Emma" "Jane Austen"
                  {| title := Some "Emma; a novel"; author := Some "Austen, Jane";
                     language := None |})
  = author_match (verify_metadata "Emma; a novel" "Austen, Jane"
                    {| title := Some "Emma"; author := Some "Jane Austen";
                       language := None |}).
Proof.
  apply (author_match_symmetric "Emma" "Jane Austen"
           {| title := Some "Emma; a novel"; author := Some "Austen, Jane"; language := None |}
           "Emma; a novel" "Austen, Jane" eq_refl eq_refl); discriminate.
Defined.
